(** * VLookup Web App: the tabular data pipeline

    A shallow embedding of [services/csvService.ts] (the delimited-text
    parser, the spreadsheet normaliser, the source dispatcher and the CSV
    serialiser) and of the join performed by [handlePerformVlookup] in
    [App.tsx], followed by the properties the specification states about
    them.

    Conventions of the embedding.
    - A JavaScript string is a [string]; each [ascii] stands for one UTF-16
      code unit below 256, so that [csvText[i]], [trim] and [toLowerCase]
      act on the Latin-1 range.
    - A table cell has the TypeScript type [any].  The values the pipeline
      distinguishes are [undefined], [null], strings and booleans; number
      cells are left out because their text form is the floating-point
      printing algorithm.
    - Array reads out of range and at index [-1] give [undefined], as they
      do in JavaScript. *)

From Stdlib Require Import ZArith Ascii.
From stdpp Require Import base gmap strings list.

(** ** JavaScript values and arrays *)

Inductive cell : Type :=
  | Undefined
  | Null
  | Str (s : string)
  | Bool (b : bool).

Global Instance cell_eq_dec : EqDecision cell.
Proof. solve_decision. Defined.

(** [String(v)] *)
Definition js_String (v : cell) : string :=
  match v with
  | Undefined => "undefined"
  | Null => "null"
  | Str s => s
  | Bool true => "true"
  | Bool false => "false"
  end.

(** Truthiness of a value, as used by [||] and [if]. *)
Definition truthy (v : cell) : bool :=
  match v with
  | Undefined | Null => false
  | Str s => negb (bool_decide (s = ""))
  | Bool b => b
  end.

(** [row[i]] for an integer [i]: [undefined] outside [0 .. length-1]. *)
Definition js_get (row : list cell) (i : Z) : cell :=
  if (i <? 0)%Z then Undefined else default Undefined (row !! Z.to_nat i).

(** [arr.indexOf(x)] on an array of strings: the first position holding
    [x], or [-1]. *)
Fixpoint indexOf_from (k : Z) (arr : list string) (x : string) : Z :=
  match arr with
  | [] => (-1)%Z
  | h :: arr' => if decide (h = x) then k else indexOf_from (k + 1)%Z arr' x
  end.

Definition indexOf (arr : list string) (x : string) : Z :=
  indexOf_from 0%Z arr x.

(** [row[i]] for a position [i] counted from zero. *)
Definition cellAt (row : list cell) (i : nat) : cell :=
  default Undefined (row !! i).

(** [h] stands at position [i] of [arr] and nowhere before. *)
Definition firstAt (arr : list string) (h : string) (i : nat) : Prop :=
  arr !! i = Some h /\ forall j, (j < i)%nat -> arr !! j <> Some h.

(** A string is truthy when it is not empty. *)
Definition nonEmpty (s : string) : bool := negb (bool_decide (s = "")).

(** ** types.ts *)

Record TableData : Type := mkTableData {
  headers : list string;
  rows : list (list cell)
}.

Record Table : Type := mkTable {
  name : string;
  data : TableData
}.

Global Instance TableData_eq_dec : EqDecision TableData.
Proof. solve_decision. Defined.

(** A table all of whose cells are strings. *)
Definition textTable (hs : list string) (rs : list (list string)) : TableData :=
  {| headers := hs; rows := (fun row : list string => Str <$> row) <$> rs |}.

(** Every row is as wide as the header row. *)
Definition rectangular (t : TableData) : Prop :=
  Forall (fun row => length row = length (headers t)) (rows t).

(** ** App.tsx: the join *)

Module Join.

(** Lines 95-99: the index from match key to right row; [Map.set]
    overwrites. *)
Definition buildLookupMap (matchColumnIndex : Z) (rowsB : list (list cell))
  : gmap string (list cell) :=
  foldl (fun lookupMap row =>
           <[ js_String (js_get row matchColumnIndex) := row ]> lookupMap)
        ∅ rowsB.

(** Lines 104-109: the callback of [tableA.data.rows.map]. *)
Definition joinRow (lookupMap : gmap string (list cell))
    (lookupColumnIndex returnColumnIndex : Z) (rowA : list cell) : list cell :=
  let lookupValue := js_String (js_get rowA lookupColumnIndex) in
  let returnValue :=
    match lookupMap !! lookupValue with
    | Some matchedRowB => js_get matchedRowB returnColumnIndex
    | None => Str "N/A"
    end in
  rowA ++ [returnValue].

(** The body of the join with the three column indices already resolved. *)
Definition vlookupAt (lookupColumnIndex matchColumnIndex returnColumnIndex : Z)
    (tableA tableB : TableData) (returnColumn : string) : TableData :=
  let lookupMap := buildLookupMap matchColumnIndex (rows tableB) in
  {| headers := headers tableA ++ [returnColumn];
     rows := joinRow lookupMap lookupColumnIndex returnColumnIndex
             <$> rows tableA |}.

(** Lines 92-111: the body of the [try] block. *)
Definition vlookup (tableA tableB : TableData)
    (lookupColumn matchColumn returnColumn : string) : TableData :=
  let matchColumnIndex := indexOf (headers tableB) matchColumn in
  let returnColumnIndex := indexOf (headers tableB) returnColumn in
  let lookupColumnIndex := indexOf (headers tableA) lookupColumn in
  vlookupAt lookupColumnIndex matchColumnIndex returnColumnIndex
            tableA tableB returnColumn.

(** The part of the component state the handler reads and writes. *)
Record AppState : Type := mkAppState {
  tableA : option Table;
  tableB : option Table;
  mergedData : option TableData;
  lookupColumn : string;
  matchColumn : string;
  returnColumn : string;
  isLoading : bool;
  error : option string
}.

Definition selectColumnsMessage : string :=
  "Please ensure both tables are loaded and all columns are selected.".

(** Lines 79-118.  The guard of line 80 only asks that both tables are
    loaded and that the three names are non-empty strings.  The deferred
    callback is run right after the synchronous part; nothing in its [try]
    block throws, so the [catch] branch is not represented. *)
Definition handlePerformVlookup (st : AppState) : AppState :=
  match tableA st, tableB st with
  | Some a, Some b =>
      if nonEmpty (lookupColumn st) && nonEmpty (matchColumn st)
         && nonEmpty (returnColumn st)
      then
        {| tableA := tableA st; tableB := tableB st;
           mergedData :=
             Some (vlookup (data a) (data b) (lookupColumn st)
                           (matchColumn st) (returnColumn st));
           lookupColumn := lookupColumn st; matchColumn := matchColumn st;
           returnColumn := returnColumn st;
           isLoading := false; error := None |}
      else
        {| tableA := tableA st; tableB := tableB st;
           mergedData := mergedData st;
           lookupColumn := lookupColumn st; matchColumn := matchColumn st;
           returnColumn := returnColumn st;
           isLoading := isLoading st; error := Some selectColumnsMessage |}
  | _, _ =>
      {| tableA := tableA st; tableB := tableB st;
         mergedData := mergedData st;
         lookupColumn := lookupColumn st; matchColumn := matchColumn st;
         returnColumn := returnColumn st;
         isLoading := isLoading st; error := Some selectColumnsMessage |}
  end.

End Join.

(** ** services/csvService.ts *)

Module CsvService.

Definition dquote : ascii := "034"%char.
Definition comma : ascii := ","%char.
Definition LF : ascii := "010"%char.
Definition CR : ascii := "013"%char.

(** The settled state of a promise. *)
Inductive outcome (A : Type) : Type :=
  | Resolved (a : A)
  | Rejected (message : string).
Arguments Resolved {A} a.
Arguments Rejected {A} message.

(** *** String primitives *)

(** [s + c] *)
Definition push_char (s : string) (c : ascii) : string := s +:+ String c "".

(** White space and line terminators removed by [String.prototype.trim],
    among the code units below 256: TAB, LF, VT, FF, CR, SP and NBSP. *)
Definition is_js_space (c : ascii) : bool :=
  match c with
  | "009" | "010" | "011" | "012" | "013" | " " | "160" => true
  | _ => false
  end%char.

Fixpoint trimStart (s : string) : string :=
  match s with
  | "" => ""
  | String c s' => if is_js_space c then trimStart s' else s
  end.

Fixpoint trimEnd (s : string) : string :=
  match s with
  | "" => ""
  | String c s' =>
      match trimEnd s' with
      | "" => if is_js_space c then "" else String c ""
      | t => String c t
      end
  end.

Definition trim (s : string) : string := trimEnd (trimStart s).

(** [arr.join(sep)] on an array of strings. *)
Fixpoint join (sep : string) (arr : list string) : string :=
  match arr with
  | [] => ""
  | [x] => x
  | x :: rest => x +:+ sep +:+ join sep rest
  end.

(** *** parseCsv, lines 8-87 *)

Record scanner : Type := mkScanner {
  scanRows : list (list string);
  currentRow : list string;
  currentField : string;
  inQuotedField : bool
}.

Definition initialScanner : scanner :=
  {| scanRows := []; currentRow := []; currentField := "";
     inQuotedField := false |}.

(** The test of line 42: [i > 0] and the previous character is neither CR
    nor LF.  [prev] is [csvText[i - 1]], absent at [i = 0]. *)
Definition breaksRow (prev : option ascii) : bool :=
  match prev with
  | None => false
  | Some p => negb (bool_decide (p = CR)) && negb (bool_decide (p = LF))
  end.

(** The body of the [switch] of lines 32-51. *)
Definition unquotedStep (prev : option ascii) (st : scanner) (char : ascii)
  : scanner :=
  if decide (char = dquote) then
    {| scanRows := scanRows st; currentRow := currentRow st;
       currentField := currentField st; inQuotedField := true |}
  else if decide (char = comma) then
    {| scanRows := scanRows st;
       currentRow := currentRow st ++ [currentField st];
       currentField := ""; inQuotedField := false |}
  else if decide (char = LF \/ char = CR) then
    if breaksRow prev then
      {| scanRows := scanRows st ++ [currentRow st ++ [currentField st]];
         currentRow := []; currentField := ""; inQuotedField := false |}
    else st
  else
    {| scanRows := scanRows st; currentRow := currentRow st;
       currentField := push_char (currentField st) char;
       inQuotedField := false |}.

Definition appendChar (st : scanner) (char : ascii) : scanner :=
  {| scanRows := scanRows st; currentRow := currentRow st;
     currentField := push_char (currentField st) char;
     inQuotedField := inQuotedField st |}.

Definition closeQuote (st : scanner) : scanner :=
  {| scanRows := scanRows st; currentRow := currentRow st;
     currentField := currentField st; inQuotedField := false |}.

(** The [for] loop of lines 16-53 over the characters still to read.  The
    escaped quote of lines 21-24 consumes two characters, which is the
    [i++] of the source. *)
Fixpoint scan (prev : option ascii) (st : scanner) (csvText : string)
  : scanner :=
  match csvText with
  | "" => st
  | String char rest =>
      if inQuotedField st then
        if decide (char = dquote) then
          match rest with
          | String next rest' =>
              if decide (next = dquote)
              then scan (Some next) (appendChar st dquote) rest'
              else scan (Some char) (closeQuote st) rest
          | "" => scan (Some char) (closeQuote st) rest
          end
        else scan (Some char) (appendChar st char) rest
      else scan (Some char) (unquotedStep prev st char) rest
  end.

(** Lines 55-59: the last field and row. *)
Definition flush (st : scanner) : list (list string) :=
  if nonEmpty (currentField st) || (0 <? length (currentRow st))%nat
  then scanRows st ++ [currentRow st ++ [currentField st]]
  else scanRows st.

(** Line 61: the predicate of [rows.filter]. *)
Definition isNonEmptyRow (row : list string) : bool :=
  (1 <? length row)%nat
  || ((length row =? 1)%nat && nonEmpty (trim (default "" (row !! 0%nat)))).

(** Lines 76-78: [while (row.length < headers.length) row.push('')], with
    a bound on the number of iterations. *)
Fixpoint padLoop (fuel width : nat) (row : list string) : list string :=
  match fuel with
  | O => row
  | S fuel' =>
      if (length row <? width)%nat then padLoop fuel' width (row ++ [""])
      else row
  end.

(** Lines 72-80: the callback of [dataRows.map].  [width] iterations are
    enough for the loop, see [padLoop_exit]. *)
Definition sanitizeRow (width : nat) (row : list string) : list string :=
  if (width <? length row)%nat then take width row
  else padLoop width width row.

(** Lines 11-82: the table the promise resolves with. *)
Definition parseCsvTable (csvText : string) : TableData :=
  let rows := flush (scan None initialScanner csvText) in
  let nonEmptyRows := List.filter isNonEmptyRow rows in
  match nonEmptyRows with
  | [] => {| headers := []; rows := [] |}
  | headerRow :: dataRows =>
      {| headers := headerRow;
         rows := (fun row => Str <$> sanitizeRow (length headerRow) row)
                 <$> dataRows |}
  end.

(** No operation of the [try] block throws, so the promise resolves. *)
Definition parseCsv (csvText : string) : outcome TableData :=
  Resolved (parseCsvTable csvText).

(** *** parseExcel, lines 92-139 *)

(** Line 113: the predicate of [row.some]. *)
Definition hasContent (c : cell) : bool :=
  negb (bool_decide (c = Null)) && negb (bool_decide (c = Undefined))
  && nonEmpty (trim (js_String c)).

(** Line 121: [String(h || '')]. *)
Definition headerText (h : cell) : string :=
  js_String (if truthy h then h else Str "").

(** Line 129. *)
Definition cellText (c : cell) : cell :=
  if negb (bool_decide (c = Undefined)) && negb (bool_decide (c = Null))
  then Str (js_String c) else Str "".

(** Lines 127-131: [row.forEach((cell, index) => ...)] writing into
    [newRow]. *)
Fixpoint forEachFill (width index : nat) (row newRow : list cell)
  : list cell :=
  match row with
  | [] => newRow
  | c :: rest =>
      forEachFill width (S index) rest
        (if (index <? width)%nat then <[index := cellText c]> newRow
         else newRow)
  end.

(** Lines 125-133: the callback of [dataRows.map]. *)
Definition sanitizeSheetRow (width : nat) (row : list cell) : list cell :=
  forEachFill width 0 row (replicate width (Str "")).

(** Lines 107-135: from the array of arrays of the first sheet to the
    table. *)
Definition normalizeSheet (sheetRows : list (list cell)) : TableData :=
  match sheetRows with
  | [] => {| headers := []; rows := [] |}
  | _ =>
      match List.filter (existsb hasContent) sheetRows with
      | [] => {| headers := []; rows := [] |}
      | headerRow :: dataRows =>
          let headers := headerText <$> headerRow in
          {| headers := headers;
             rows := sanitizeSheetRow (length headers) <$> dataRows |}
      end
  end.

(** *** parseFile, lines 144-156 *)

Record File : Type := mkFile {
  fileName : string;
  fileText : string;          (* what [file.text()] resolves with *)
  fileBytes : list ascii      (* what [file.arrayBuffer()] resolves with *)
}.

(** The reads of the file's content a call performs. *)
Inductive fileRead : Type := ReadText | ReadArrayBuffer.

Definition lowerChar (c : ascii) : ascii :=
  let n := nat_of_ascii c in
  if ((65 <=? n) && (n <=? 90))%nat
     || ((192 <=? n) && (n <=? 222) && negb (n =? 215))%nat
  then ascii_of_nat (n + 32) else c.

Fixpoint toLowerCase (s : string) : string :=
  match s with
  | "" => ""
  | String c s' => String (lowerChar c) (toLowerCase s')
  end.

Fixpoint endsWith (s suffix : string) : bool :=
  if decide (s = suffix) then true
  else match s with
       | "" => false
       | String _ s' => endsWith s' suffix
       end.

Definition excelMessage : string :=
  "Failed to parse Excel file. Please ensure it is a valid .xlsx or .xls file.".

Definition unsupportedMessage : string :=
  "Unsupported file format. Please upload a CSV (.csv) or Excel (.xlsx, .xls) file.".

Section Dispatcher.

(** The xlsx library, which is not part of the repository: [read] followed
    by [utils.sheet_to_json(sheet, { header: 1, defval: '' })] on each sheet
    in [SheetNames] order, and [None] when the library throws. *)
Variable xlsxSheets : list ascii -> option (list (list (list cell))).

Definition parseExcel (file : File) : list fileRead * outcome TableData :=
  ([ReadArrayBuffer],
   match xlsxSheets (fileBytes file) with
   | None => Rejected excelMessage
   | Some [] => Resolved {| headers := []; rows := [] |}
   | Some (sheetRows :: _) => Resolved (normalizeSheet sheetRows)
   end).

Definition parseFile (file : File) : list fileRead * outcome TableData :=
  let name := toLowerCase (fileName file) in
  if endsWith name ".csv" then ([ReadText], parseCsv (fileText file))
  else if endsWith name ".xlsx" || endsWith name ".xls" then parseExcel file
  else ([], Rejected unsupportedMessage).

End Dispatcher.

(** *** generateCsv, lines 162-176 *)

(** Line 166: the field contains a double quote, a comma, LF or CR. *)
Fixpoint needsQuoting (s : string) : bool :=
  match s with
  | "" => false
  | String c s' =>
      bool_decide (c = dquote) || bool_decide (c = comma)
      || bool_decide (c = LF) || bool_decide (c = CR) || needsQuoting s'
  end.

(** Line 167: every double quote of the field is written twice. *)
Fixpoint doubleQuotes (s : string) : string :=
  match s with
  | "" => ""
  | String c s' =>
      if decide (c = dquote) then String dquote (String dquote (doubleQuotes s'))
      else String c (doubleQuotes s')
  end.

Definition escapeField (field : cell) : string :=
  let stringField :=
    js_String (match field with Undefined | Null => Str "" | _ => field end) in
  if needsQuoting stringField
  then String dquote (doubleQuotes stringField +:+ String dquote "")
  else stringField.

Definition generateCsv (data : TableData) : string :=
  let headerRow := join "," (escapeField <$> (Str <$> headers data)) in
  let dataRows := (fun row => join "," (escapeField <$> row)) <$> rows data in
  join (String LF "") (headerRow :: dataRows).

End CsvService.

Import CsvService.

(** ** App.tsx: loading pasted text, lines 61-76 *)

Definition pastedEmptyMessage : string :=
  "Pasted data is empty or invalid. Please ensure it's valid CSV format.".

(** The table slot and the error message the handler leaves behind.  The
    check of line 66 is the caller's: the parser has resolved by then. *)
Definition handlePastedData (text : string) : option Table * option string :=
  match parseCsv text with
  | Resolved data =>
      if (length (headers data) =? 0)%nat || (length (rows data) =? 0)%nat
      then (None, Some pastedEmptyMessage)
      else (Some {| name := "Pasted Data"; data := data |}, None)
  | Rejected message => (None, Some message)
  end.

(** ** App.tsx: the other handlers *)

Module App.

Import Join.

(** The state setters of the component. *)
Definition setTableA (v : option Table) (st : AppState) : AppState :=
  {| tableA := v; tableB := tableB st; mergedData := mergedData st;
     lookupColumn := lookupColumn st; matchColumn := matchColumn st;
     returnColumn := returnColumn st; isLoading := isLoading st;
     error := error st |}.

Definition setTableB (v : option Table) (st : AppState) : AppState :=
  {| tableA := tableA st; tableB := v; mergedData := mergedData st;
     lookupColumn := lookupColumn st; matchColumn := matchColumn st;
     returnColumn := returnColumn st; isLoading := isLoading st;
     error := error st |}.

Definition setMergedData (v : option TableData) (st : AppState) : AppState :=
  {| tableA := tableA st; tableB := tableB st; mergedData := v;
     lookupColumn := lookupColumn st; matchColumn := matchColumn st;
     returnColumn := returnColumn st; isLoading := isLoading st;
     error := error st |}.

Definition setLookupColumn (v : string) (st : AppState) : AppState :=
  {| tableA := tableA st; tableB := tableB st; mergedData := mergedData st;
     lookupColumn := v; matchColumn := matchColumn st;
     returnColumn := returnColumn st; isLoading := isLoading st;
     error := error st |}.

Definition setMatchColumn (v : string) (st : AppState) : AppState :=
  {| tableA := tableA st; tableB := tableB st; mergedData := mergedData st;
     lookupColumn := lookupColumn st; matchColumn := v;
     returnColumn := returnColumn st; isLoading := isLoading st;
     error := error st |}.

Definition setReturnColumn (v : string) (st : AppState) : AppState :=
  {| tableA := tableA st; tableB := tableB st; mergedData := mergedData st;
     lookupColumn := lookupColumn st; matchColumn := matchColumn st;
     returnColumn := v; isLoading := isLoading st; error := error st |}.

Definition setIsLoading (v : bool) (st : AppState) : AppState :=
  {| tableA := tableA st; tableB := tableB st; mergedData := mergedData st;
     lookupColumn := lookupColumn st; matchColumn := matchColumn st;
     returnColumn := returnColumn st; isLoading := v; error := error st |}.

Definition setError (v : option string) (st : AppState) : AppState :=
  {| tableA := tableA st; tableB := tableB st; mergedData := mergedData st;
     lookupColumn := lookupColumn st; matchColumn := matchColumn st;
     returnColumn := returnColumn st; isLoading := isLoading st;
     error := v |}.

(** [prev || fallback] on strings. *)
Definition orElse (prev fallback : string) : string :=
  if nonEmpty prev then prev else fallback.

(** Lines 21-41: the effect run when a table changes.  [find] gives the
    first element passing the test; an absent or empty result is falsy. *)
Definition autoSelectColumns (st : AppState) : AppState :=
  match tableA st, tableB st with
  | Some a, Some b =>
      let headersA := headers (data a) in
      let headersB := headers (data b) in
      match List.find
              (fun h => existsb (fun hb =>
                           bool_decide (toLowerCase hb = toLowerCase h))
                        headersB)
              headersA with
      | Some commonHeader =>
          if nonEmpty commonHeader then
            match List.find
                    (fun h => bool_decide
                                (toLowerCase h = toLowerCase commonHeader))
                    headersB with
            | Some headerInB =>
                if nonEmpty headerInB then
                  let st1 :=
                    setLookupColumn (orElse (lookupColumn st) commonHeader) st in
                  setMatchColumn (orElse (matchColumn st1) headerInB) st1
                else st
            | None => st
            end
          else st
      | None => st
      end
  | _, _ => st
  end.

Definition fileEmptyMessage : string :=
  "File is empty or invalid. Please check the file and try again.".

(** Lines 43-59, with the reads of the file that [parseFile] performs.
    [tableSetter] is [setTableA] or [setTableB]. *)
Definition handleDataParsed
    (xlsxSheets : list ascii -> option (list (list (list cell))))
    (file : File) (tableSetter : option Table -> AppState -> AppState)
    (st : AppState) : list fileRead * AppState :=
  let st1 := setError None (setIsLoading true st) in
  let (reads, result) := parseFile xlsxSheets file in
  let st2 :=
    match result with
    | Resolved data =>
        if (length (headers data) =? 0)%nat || (length (rows data) =? 0)%nat
        then tableSetter None (setError (Some fileEmptyMessage) st1)
        else tableSetter (Some {| name := fileName file; data := data |}) st1
    | Rejected message => tableSetter None (setError (Some message) st1)
    end in
  (reads, setIsLoading false st2).

(** What [handleDownload] hands to the browser. *)
Record download : Type := mkDownload {
  downloadName : string;
  downloadType : string;
  downloadContent : string
}.

(** Lines 120-136: nothing happens without a merged table; otherwise the
    serialised table is offered under a fixed name.  The DOM calls around
    the blob are not represented. *)
Definition handleDownload (st : AppState) : option download :=
  match mergedData st with
  | None => None
  | Some merged =>
      Some {| downloadName := "merged_data.csv";
              downloadType := "text/csv;charset=utf-8;";
              downloadContent := generateCsv merged |}
  end.

(** Line 138. *)
Definition isVlookupReady (st : AppState) : bool :=
  bool_decide (is_Some (tableA st)) && bool_decide (is_Some (tableB st))
  && nonEmpty (lookupColumn st) && nonEmpty (matchColumn st)
  && nonEmpty (returnColumn st).

(** Lines 140-149. *)
Definition resetTable (tableSetter : option Table -> AppState -> AppState)
    (isTableA : bool) (st : AppState) : AppState :=
  let st1 := setMergedData None (tableSetter None st) in
  if isTableA then setLookupColumn "" st1
  else setReturnColumn "" (setMatchColumn "" st1).

End App.

(** ** components/DataSource.tsx *)

Module DataSource.

Section Callbacks.

Context {R : Type}.
Variable onDataParsed : File -> R.
Variable onPastedData : string -> R.

(** Lines 29-33: pasted text is passed on unless [trim] empties it. *)
Definition handlePasteAndParse (pastedText : string) : option R :=
  if nonEmpty (trim pastedText) then Some (onPastedData pastedText) else None.

(** Lines 39-49: a dropped file is passed on when its lower-cased name
    ends in one of the three extensions. *)
Definition handleDrop (file : option File) : option R :=
  match file with
  | Some f =>
      let name := toLowerCase (fileName f) in
      if endsWith name ".csv" || endsWith name ".xlsx" || endsWith name ".xls"
      then Some (onDataParsed f) else None
  | None => None
  end.

End Callbacks.

End DataSource.

(** ** Vocabulary of the statements *)

(** The right row selected for a key: the last row, in table order, whose
    match cell has that text. *)
Fixpoint lastMatch (matchColumnIndex : Z) (key : string)
    (rowsB : list (list cell)) : option (list cell) :=
  match rowsB with
  | [] => None
  | row :: rest =>
      match lastMatch matchColumnIndex key rest with
      | Some r => Some r
      | None =>
          if decide (js_String (js_get row matchColumnIndex) = key)
          then Some row else None
      end
  end.

(** Every character of the string is white space for [trim]. *)
Fixpoint allSpace (s : string) : bool :=
  match s with
  | "" => true
  | String c s' => is_js_space c && allSpace s'
  end.

(** The last character of [s], or [prev] when [s] is empty: the character
    before the position the scanner has reached once it has read [s]. *)
Fixpoint lastOr (prev : option ascii) (s : string) : option ascii :=
  match s with
  | "" => prev
  | String c s' => lastOr (Some c) s'
  end.

(** Rows of a single field made of white space. *)
Definition blankRows (rs : list (list string)) : Prop :=
  Forall (fun row => exists f, row = [f] /\ allSpace f = true) rs.

(** The line [generateCsv] writes for a row of strings. *)
Definition serializeRow (row : list string) : string :=
  join "," (escapeField <$> (Str <$> row)).

(** The text [escapeField] writes for a cell before quoting; it is also the
    text [parseExcel] stores for a cell. *)
Definition fieldText (c : cell) : string :=
  match c with
  | Undefined | Null => ""
  | _ => js_String c
  end.

(** Every character of the string is CR or LF. *)
Fixpoint allNewline (s : string) : bool :=
  match s with
  | "" => true
  | String c s' =>
      (bool_decide (c = LF) || bool_decide (c = CR)) && allNewline s'
  end.


(** Every cell of the table is a string. *)
Definition allText (t : TableData) : Prop :=
  Forall (Forall (fun c => exists s, c = Str s)) (rows t).

(** What the loading handlers ask of a table before they store it, and what
    the parsers give: a header, a data row, rows as wide as the header row,
    and text in every cell. *)
Definition loadedTable (t : TableData) : Prop :=
  headers t <> [] /\ rows t <> [] /\ rectangular t /\ allText t.

(** The text of the match cell of a right row. *)
Definition matchKey (matchColumnIndex : Z) (row : list cell) : string :=
  js_String (js_get row matchColumnIndex).

(** ** Sample data *)

Module Sample.

(** The tables of the join example in the specification. *)
Definition left : TableData :=
  {| headers := ["ID"; "Name"];
     rows := [[Str "1"; Str "A"]; [Str "2"; Str "B"]; [Str "3"; Str "C"]] |}.

Definition right : TableData :=
  {| headers := ["ID"; "Score"];
     rows := [[Str "2"; Str "90"]; [Str "1"; Str "80"]] |}.

(** A right table in which the key 1 occurs twice. *)
Definition rightDup : TableData :=
  {| headers := ["ID"; "Score"];
     rows := [[Str "1"; Str "70"]; [Str "2"; Str "90"]; [Str "1"; Str "80"]] |}.

(** A right table in which the header Score occurs twice. *)
Definition rightTwoScores : TableData :=
  {| headers := ["ID"; "Score"; "Score"];
     rows := [[Str "2"; Str "90"; Str "9"]; [Str "1"; Str "80"; Str "8"]] |}.

(** Both tables loaded, and a return column that the right table lacks. *)
Definition staleState : Join.AppState :=
  {| Join.tableA := Some {| name := "a.csv"; data := left |};
     Join.tableB := Some {| name := "b.csv"; data := right |};
     Join.mergedData := None;
     Join.lookupColumn := "ID"; Join.matchColumn := "ID";
     Join.returnColumn := "Bonus";
     Join.isLoading := false; Join.error := None |}.

End Sample.

(** * Properties *)

(** ** Arrays *)

Lemma js_get_nat (row : list cell) (i : nat) :
  js_get row (Z.of_nat i) = cellAt row i.
Proof.
  unfold js_get, cellAt. destruct (Z.ltb_spec (Z.of_nat i) 0) as [H|H]; [lia|].
  by rewrite Nat2Z.id.
Qed.

Lemma js_get_minus_one (row : list cell) : js_get row (-1) = Undefined.
Proof. reflexivity. Qed.

Lemma indexOf_from_firstAt (arr : list string) (h : string) (i : nat) (k : Z) :
  firstAt arr h i -> indexOf_from k arr h = (k + Z.of_nat i)%Z.
Proof.
  revert i k. induction arr as [|x arr IH]; intros i k [Hi Hlt].
  - by rewrite lookup_nil in Hi.
  - simpl. destruct i as [|i].
    + simpl in Hi. injection Hi as ->. rewrite decide_True by done. lia.
    + rewrite decide_False.
      * rewrite (IH i (k + 1)%Z); [lia|]. split; [exact Hi|].
        intros j Hj. apply (Hlt (S j)). lia.
      * intros ->. apply (Hlt O); [lia|done].
Qed.

Lemma indexOf_firstAt (arr : list string) (h : string) (i : nat) :
  firstAt arr h i -> indexOf arr h = Z.of_nat i.
Proof. intros H. unfold indexOf. by rewrite (indexOf_from_firstAt _ _ i). Qed.

Lemma firstAt_exists (arr : list string) (h : string) :
  h ∈ arr -> exists i, firstAt arr h i.
Proof.
  induction arr as [|x arr IH]; intros Hin.
  - by apply elem_of_nil in Hin.
  - destruct (decide (x = h)) as [->|Hne].
    + exists O. split; [done|]. intros j Hj. lia.
    + apply elem_of_cons in Hin as [->|Hin]; [done|].
      destruct (IH Hin) as [i [Hi Hlt]]. exists (S i). split; [exact Hi|].
      intros [|j] Hj; simpl.
      * congruence.
      * apply Hlt. lia.
Qed.

Lemma indexOf_from_absent (arr : list string) (h : string) (k : Z) :
  h ∉ arr -> indexOf_from k arr h = (-1)%Z.
Proof.
  revert k. induction arr as [|x arr IH]; intros k Hnin; [done|].
  simpl. apply not_elem_of_cons in Hnin as [Hne Hnin].
  rewrite decide_False by congruence. by apply IH.
Qed.

(** ** The join *)

Section JoinFacts.

Import Join.

Implicit Types (rowsB : list (list cell)) (key : string).

Lemma foldl_insert_lookup (mi : Z) rowsB (m : gmap string (list cell)) key :
  foldl (fun lookupMap row => <[ js_String (js_get row mi) := row ]> lookupMap)
        m rowsB !! key
  = match lastMatch mi key rowsB with
    | Some r => Some r
    | None => m !! key
    end.
Proof.
  revert m. induction rowsB as [|row rest IH]; intros m; [done|].
  simpl. rewrite IH. destruct (lastMatch mi key rest); [done|].
  destruct (decide (js_String (js_get row mi) = key)) as [<-|Hne].
  - by rewrite lookup_insert_eq.
  - by rewrite lookup_insert_ne.
Qed.

(** The index built by the loop answers with the last matching row. *)
Lemma buildLookupMap_lookup (mi : Z) rowsB key :
  buildLookupMap mi rowsB !! key = lastMatch mi key rowsB.
Proof.
  unfold buildLookupMap. rewrite foldl_insert_lookup.
  destruct (lastMatch mi key rowsB); [done|]. apply lookup_empty.
Qed.

Lemma lastMatch_Some (mi : Z) key rowsB r :
  lastMatch mi key rowsB = Some r ->
  r ∈ rowsB /\ js_String (js_get r mi) = key.
Proof.
  induction rowsB as [|row rest IH]; [done|]. simpl.
  destruct (lastMatch mi key rest) as [r'|].
  - intros [= ->]. destruct IH as [Hin Hk]; [done|]. split; [|done].
    apply elem_of_cons. by right.
  - destruct (decide (js_String (js_get row mi) = key)); [|done].
    intros [= ->]. split; [apply elem_of_cons; by left|done].
Qed.

Lemma lastMatch_None (mi : Z) key rowsB :
  lastMatch mi key rowsB = None ->
  forall r, r ∈ rowsB -> js_String (js_get r mi) <> key.
Proof.
  induction rowsB as [|row rest IH]; intros Hnone r Hin.
  - by apply elem_of_nil in Hin.
  - simpl in Hnone. destruct (lastMatch mi key rest) eqn:E; [done|].
    destruct (decide (js_String (js_get row mi) = key)); [done|].
    apply elem_of_cons in Hin as [->|Hin]; [done|]. by apply IH.
Qed.

(** A row after which the key does not occur again is the one selected. *)
Lemma lastMatch_app_last (mi : Z) key (before after : list (list cell)) r :
  js_String (js_get r mi) = key ->
  (forall r', r' ∈ after -> js_String (js_get r' mi) <> key) ->
  lastMatch mi key (before ++ r :: after) = Some r.
Proof.
  intros Hk Hafter.
  assert (Hnone : lastMatch mi key after = None).
  { destruct (lastMatch mi key after) as [r'|] eqn:E; [|done].
    apply lastMatch_Some in E as [Hin Hk']. by destruct (Hafter r' Hin). }
  induction before as [|b before IH]; simpl.
  - rewrite Hnone. by rewrite decide_True.
  - by rewrite IH.
Qed.

Lemma vlookup_rows_lookup (tA tB : TableData) (lc mc rc : string) (i : nat)
    (rowA : list cell) :
  rows tA !! i = Some rowA ->
  rows (vlookup tA tB lc mc rc) !! i
  = Some (rowA ++
      [match lastMatch (indexOf (headers tB) mc)
               (js_String (js_get rowA (indexOf (headers tA) lc))) (rows tB)
       with
       | Some rowB => js_get rowB (indexOf (headers tB) rc)
       | None => Str "N/A"
       end]).
Proof.
  intros Hi. unfold vlookup, vlookupAt. simpl.
  rewrite list_lookup_fmap, Hi. simpl. unfold joinRow.
  by rewrite buildLookupMap_lookup.
Qed.

End JoinFacts.

(** ** Claims about the join *)

Section JoinClaims.

Import Join.

(** C1.  When the three column names occur in the headers of their tables,
    the join returns the left headers followed by [returnColumn] and one
    output row per left row, in the same order; each output row is the left
    row followed by one cell.  That cell is the return-column cell of a right
    row whose match-column cell has the same text as the left row's
    lookup-column cell, and it is the text N/A when no right row has that
    text.  The columns are read at positions holding the three names. *)
Theorem vlookup_left_join (tA tB : TableData) (lc mc rc : string) :
  lc ∈ headers tA -> mc ∈ headers tB -> rc ∈ headers tB ->
  exists li mi ri : nat,
    headers tA !! li = Some lc /\ headers tB !! mi = Some mc
    /\ headers tB !! ri = Some rc
    /\ headers (vlookup tA tB lc mc rc) = headers tA ++ [rc]
    /\ length (rows (vlookup tA tB lc mc rc)) = length (rows tA)
    /\ forall i rowA, rows tA !! i = Some rowA ->
         exists v, rows (vlookup tA tB lc mc rc) !! i = Some (rowA ++ [v])
           /\ ((exists rowB, rowB ∈ rows tB
                  /\ js_String (cellAt rowB mi) = js_String (cellAt rowA li)
                  /\ v = cellAt rowB ri)
               \/ ((forall rowB, rowB ∈ rows tB ->
                      js_String (cellAt rowB mi) <> js_String (cellAt rowA li))
                   /\ v = Str "N/A")).
Proof.
  intros Hl Hm Hr.
  destruct (firstAt_exists _ _ Hl) as [li Hli].
  destruct (firstAt_exists _ _ Hm) as [mi Hmi].
  destruct (firstAt_exists _ _ Hr) as [ri Hri].
  exists li, mi, ri.
  split; [apply Hli|]. split; [apply Hmi|]. split; [apply Hri|].
  split; [done|]. split.
  { unfold vlookup, vlookupAt. simpl. apply length_fmap. }
  intros i rowA Hi. rewrite (vlookup_rows_lookup _ _ _ _ _ _ _ Hi).
  rewrite (indexOf_firstAt _ _ _ Hli), (indexOf_firstAt _ _ _ Hmi),
    (indexOf_firstAt _ _ _ Hri), !js_get_nat.
  destruct (lastMatch (Z.of_nat mi) (js_String (cellAt rowA li)) (rows tB))
    as [rowB|] eqn:E.
  - eexists. split; [done|]. left. exists rowB.
    apply lastMatch_Some in E as [Hin Hk]. rewrite js_get_nat in Hk.
    rewrite js_get_nat. done.
  - eexists. split; [done|]. right. split; [|done].
    intros rowB Hin. rewrite <- js_get_nat. by apply (lastMatch_None _ _ _ E).
Qed.

Lemma vlookup_left_join_witness :
  headers (vlookup Sample.left Sample.right "ID" "ID" "Score")
  = ["ID"; "Name"; "Score"].
Proof.
  destruct (vlookup_left_join Sample.left Sample.right "ID" "ID" "Score")
    as (li & mi & ri & _ & _ & _ & H & _).
  - apply elem_of_cons. left. reflexivity.
  - apply elem_of_cons. left. reflexivity.
  - apply elem_of_cons. right. apply elem_of_cons. left. reflexivity.
  - exact H.
Defined.

(** C2, as the specification states it, fails: with a return column that
    the right table does not have, the handler reports no error and stores
    a merged table whose new column holds [undefined] for the matched
    rows. *)
Lemma vlookup_absent_column_accepted :
  ("Bonus" ∉ headers Sample.right)
  /\ error (handlePerformVlookup Sample.staleState) = None
  /\ mergedData (handlePerformVlookup Sample.staleState)
     = Some {| headers := ["ID"; "Name"; "Bonus"];
               rows := [[Str "1"; Str "A"; Undefined];
                        [Str "2"; Str "B"; Undefined];
                        [Str "3"; Str "C"; Str "N/A"]] |}.
Proof.
  split.
  - intros H. repeat (apply elem_of_cons in H as [H|H]; [discriminate H|]).
    by apply elem_of_nil in H.
  - split; vm_compute; reflexivity.
Qed.

(** C2, amended.  The handler refuses the request exactly when a table is
    not loaded or one of the three column names is the empty string; it then
    sets the error message and leaves the merged table as it was.  In every
    other state it clears the error and stores the join, whether or not the
    names occur in the headers; a name that does not occur resolves to the
    index -1, where every row reads [undefined]. *)
Theorem handlePerformVlookup_guard (st : AppState) :
  ((error (handlePerformVlookup st) <> None) <->
     (tableA st = None \/ tableB st = None \/ lookupColumn st = ""
      \/ matchColumn st = "" \/ returnColumn st = ""))
  /\ (error (handlePerformVlookup st) <> None ->
        error (handlePerformVlookup st) = Some selectColumnsMessage
        /\ mergedData (handlePerformVlookup st) = mergedData st)
  /\ (forall a b, tableA st = Some a -> tableB st = Some b ->
        error (handlePerformVlookup st) = None ->
        mergedData (handlePerformVlookup st)
        = Some (vlookup (data a) (data b) (lookupColumn st) (matchColumn st)
                        (returnColumn st)))
  /\ (forall (hs : list string) (h : string) (row : list cell),
        h ∉ hs -> indexOf hs h = (-1)%Z /\ js_get row (indexOf hs h) = Undefined).
Proof.
  unfold handlePerformVlookup, nonEmpty.
  destruct (tableA st) as [a|], (tableB st) as [b|]; simpl.
  2-4: (split; [split; [auto|done]|]; split; [done|]; split; [done|]).
  - destruct (decide (lookupColumn st = "")) as [El|El],
      (decide (matchColumn st = "")) as [Em|Em],
      (decide (returnColumn st = "")) as [Er|Er];
      rewrite ?(bool_decide_eq_true_2 _ El), ?(bool_decide_eq_false_2 _ El),
        ?(bool_decide_eq_true_2 _ Em), ?(bool_decide_eq_false_2 _ Em),
        ?(bool_decide_eq_true_2 _ Er), ?(bool_decide_eq_false_2 _ Er); simpl.
    1-7: (split; [split; [auto 6|done]|]; split; [done|]; split; [done|]).
    8: { split; [split; [done|]|].
         - intros [H|[H|[H|[H|H]]]]; done.
         - split; [done|]. split; [by intros ? ? [= <-] [= <-] _|].
           intros hs h row Hn. unfold indexOf.
           rewrite indexOf_from_absent by done. done. }
    all: intros hs h row Hn; unfold indexOf;
      rewrite indexOf_from_absent by done; done.
  - intros hs h row Hn. unfold indexOf. rewrite indexOf_from_absent by done. done.
  - intros hs h row Hn. unfold indexOf. rewrite indexOf_from_absent by done. done.
  - intros hs h row Hn. unfold indexOf. rewrite indexOf_from_absent by done. done.
Qed.

Lemma handlePerformVlookup_guard_witness :
  mergedData (handlePerformVlookup Sample.staleState)
  = Some (vlookup Sample.left Sample.right "ID" "ID" "Bonus").
Proof.
  destruct (handlePerformVlookup_guard Sample.staleState) as (_ & _ & H & _).
  apply (H {| name := "a.csv"; data := Sample.left |}
           {| name := "b.csv"; data := Sample.right |});
    vm_compute; reflexivity.
Defined.

(** C5.  When two or more right rows have the same match key, a left row
    with that key receives the return-column cell of the last of them in
    right-table order. *)
Theorem vlookup_last_duplicate_wins (tA tB : TableData) (lc mc rc : string)
    (before between after : list (list cell)) (r1 r2 rowA : list cell)
    (key : string) (i : nat) :
  rows tB = before ++ r1 :: between ++ r2 :: after ->
  js_String (js_get r1 (indexOf (headers tB) mc)) = key ->
  js_String (js_get r2 (indexOf (headers tB) mc)) = key ->
  (forall r, r ∈ after -> js_String (js_get r (indexOf (headers tB) mc)) <> key) ->
  rows tA !! i = Some rowA ->
  js_String (js_get rowA (indexOf (headers tA) lc)) = key ->
  rows (vlookup tA tB lc mc rc) !! i
  = Some (rowA ++ [js_get r2 (indexOf (headers tB) rc)]).
Proof.
  intros HB _ Hk2 Hafter Hi HkA.
  rewrite (vlookup_rows_lookup _ _ _ _ _ _ _ Hi), HkA, HB.
  replace (before ++ r1 :: between ++ r2 :: after)
    with ((before ++ r1 :: between) ++ r2 :: after)
    by (by rewrite <- app_assoc).
  by rewrite (lastMatch_app_last _ _ _ _ _ Hk2 Hafter).
Qed.

Lemma vlookup_last_duplicate_wins_witness :
  rows (vlookup Sample.left Sample.rightDup "ID" "ID" "Score") !! 0%nat
  = Some [Str "1"; Str "A"; Str "80"].
Proof.
  apply (vlookup_last_duplicate_wins Sample.left Sample.rightDup
           "ID" "ID" "Score" [] [[Str "2"; Str "90"]] []
           [Str "1"; Str "70"] [Str "1"; Str "80"] [Str "1"; Str "A"] "1" 0).
  - reflexivity.
  - reflexivity.
  - reflexivity.
  - intros r H. by apply elem_of_nil in H.
  - reflexivity.
  - reflexivity.
Defined.

(** C6.  A column name is resolved to the first position at which it occurs
    in the header row, also when it occurs more than once; the join reads
    the lookup, match and return columns at those positions. *)
Theorem vlookup_first_header_wins (tA tB : TableData) (lc mc rc : string)
    (li mi ri : nat) :
  firstAt (headers tA) lc li ->
  firstAt (headers tB) mc mi ->
  firstAt (headers tB) rc ri ->
  indexOf (headers tA) lc = Z.of_nat li
  /\ indexOf (headers tB) mc = Z.of_nat mi
  /\ indexOf (headers tB) rc = Z.of_nat ri
  /\ vlookup tA tB lc mc rc
     = vlookupAt (Z.of_nat li) (Z.of_nat mi) (Z.of_nat ri) tA tB rc.
Proof.
  intros Hl Hm Hr. unfold vlookup.
  rewrite (indexOf_firstAt _ _ _ Hl), (indexOf_firstAt _ _ _ Hm),
    (indexOf_firstAt _ _ _ Hr). done.
Qed.

Lemma vlookup_first_header_wins_witness :
  indexOf (headers Sample.rightTwoScores) "Score" = 1%Z
  /\ vlookup Sample.left Sample.rightTwoScores "ID" "ID" "Score"
     = {| headers := ["ID"; "Name"; "Score"];
          rows := [[Str "1"; Str "A"; Str "80"]; [Str "2"; Str "B"; Str "90"];
                   [Str "3"; Str "C"; Str "N/A"]] |}.
Proof.
  destruct (vlookup_first_header_wins Sample.left Sample.rightTwoScores
              "ID" "ID" "Score" 0 0 1) as (_ & _ & H1 & H2).
  - split; [reflexivity|]. intros j Hj. lia.
  - split; [reflexivity|]. intros j Hj. lia.
  - split; [reflexivity|]. intros j Hj.
    destruct j as [|j]; [discriminate|lia].
  - split; [exact H1|]. rewrite H2. vm_compute. reflexivity.
Defined.

Lemma vlookup_rectangular (tA tB : TableData) (lc mc rc : string) :
  rectangular tA -> rectangular (vlookup tA tB lc mc rc).
Proof.
  unfold rectangular, vlookup, vlookupAt. simpl. intros H.
  apply Forall_fmap. eapply Forall_impl; [exact H|].
  intros row Hrow. simpl. unfold joinRow. rewrite !length_app, Hrow. done.
Qed.

End JoinClaims.

(** ** Row-width reconciliation *)

Section Reconciliation.

Lemma padLoop_pads (fuel width : nat) (row : list string) :
  (width <= length row + fuel)%nat ->
  padLoop fuel width row = row ++ replicate (width - length row) "".
Proof.
  revert row. induction fuel as [|fuel IH]; intros row Hfuel; simpl.
  - replace (width - length row)%nat with O by lia. by rewrite app_nil_r.
  - destruct (Nat.ltb_spec (length row) width) as [Hlt|Hge].
    + rewrite IH by (rewrite length_app; simpl; lia).
      rewrite length_app. simpl. rewrite <- app_assoc. simpl.
      replace (width - length row)%nat with (S (width - (length row + 1)))
        by lia.
      done.
    + replace (width - length row)%nat with O by lia. by rewrite app_nil_r.
Qed.

(** The loop of [sanitizeRow] has left the [while] condition false when
    its bound is reached. *)
Lemma padLoop_exit (width : nat) (row : list string) :
  (width <= length (padLoop width width row))%nat.
Proof. rewrite padLoop_pads by lia. rewrite length_app, length_replicate. lia. Qed.

Lemma sanitizeRow_spec (width : nat) (row : list string) :
  sanitizeRow width row
  = take width row ++ replicate (width - length row) "".
Proof.
  unfold sanitizeRow. destruct (Nat.ltb_spec width (length row)) as [Hlt|Hge].
  - replace (width - length row)%nat with O by lia. by rewrite app_nil_r.
  - rewrite padLoop_pads by lia. by rewrite take_ge by lia.
Qed.

Lemma sanitizeRow_length (width : nat) (row : list string) :
  length (sanitizeRow width row) = width.
Proof.
  rewrite sanitizeRow_spec, length_app, length_take, length_replicate. lia.
Qed.

Lemma forEachFill_beyond (width index : nat) (row newRow : list cell) :
  (width <= index)%nat -> forEachFill width index row newRow = newRow.
Proof.
  revert index newRow. induction row as [|c rest IH]; intros index newRow H.
  - done.
  - simpl. destruct (Nat.ltb_spec index width) as [Hlt|_]; [lia|].
    apply IH. lia.
Qed.

Lemma forEachFill_spec (width index : nat) (row filled : list cell) :
  length filled = index -> (index <= width)%nat ->
  forEachFill width index row (filled ++ replicate (width - index) (Str ""))
  = filled ++ take (width - index) (cellText <$> row)
      ++ replicate (width - index - length row) (Str "").
Proof.
  revert index filled. induction row as [|c rest IH];
    intros index filled Hlen Hle; simpl.
  - rewrite take_nil. simpl. by rewrite Nat.sub_0_r.
  - destruct (Nat.ltb_spec index width) as [Hlt|Hge].
    + replace (width - index)%nat with (S (width - S index)) by lia.
      simpl. rewrite insert_app_r_alt by lia.
      replace (index - length filled)%nat with O by lia. simpl.
      replace (filled ++ cellText c :: replicate (width - S index) (Str ""))
        with ((filled ++ [cellText c]) ++ replicate (width - S index) (Str ""))
        by (by rewrite <- app_assoc).
      rewrite IH by (rewrite ?length_app; simpl; lia).
      by rewrite <- app_assoc.
    + rewrite forEachFill_beyond by lia.
      replace (width - index)%nat with O by lia. done.
Qed.

Lemma sanitizeSheetRow_spec (width : nat) (row : list cell) :
  sanitizeSheetRow width row
  = take width (cellText <$> row)
      ++ replicate (width - length row) (Str "").
Proof.
  unfold sanitizeSheetRow.
  pose proof (forEachFill_spec width 0 row [] eq_refl ltac:(lia)) as H.
  simpl in H. rewrite !Nat.sub_0_r in H. exact H.
Qed.

Lemma sanitizeSheetRow_length (width : nat) (row : list cell) :
  length (sanitizeSheetRow width row) = width.
Proof.
  rewrite sanitizeSheetRow_spec, length_app, length_take, length_fmap,
    length_replicate. lia.
Qed.

Lemma cellText_Str (row : list string) : cellText <$> (Str <$> row) = Str <$> row.
Proof. rewrite <- list_fmap_compose. done. Qed.

(** On rows of strings the two parsers reconcile the width alike. *)
Lemma sanitizeSheetRow_strings (width : nat) (row : list string) :
  sanitizeSheetRow width (Str <$> row) = Str <$> sanitizeRow width row.
Proof.
  rewrite sanitizeSheetRow_spec, sanitizeRow_spec, cellText_Str.
  by rewrite fmap_app, fmap_take, fmap_replicate, length_fmap.
Qed.

Lemma parseCsvTable_rectangular (csvText : string) :
  rectangular (parseCsvTable csvText).
Proof.
  unfold rectangular, parseCsvTable.
  destruct (List.filter isNonEmptyRow (flush (scan None initialScanner csvText)))
    as [|headerRow dataRows]; simpl; [constructor|].
  apply Forall_fmap, Forall_forall. intros row _. simpl.
  by rewrite length_fmap, sanitizeRow_length.
Qed.

Lemma normalizeSheet_rectangular (sheetRows : list (list cell)) :
  rectangular (normalizeSheet sheetRows).
Proof.
  unfold rectangular, normalizeSheet.
  destruct sheetRows as [|r0 rs]; [constructor|].
  destruct (List.filter (existsb hasContent) (r0 :: rs))
    as [|headerRow dataRows]; simpl; [constructor|].
  apply Forall_fmap, Forall_forall. intros row _. simpl.
  by rewrite sanitizeSheetRow_length.
Qed.

End Reconciliation.

(** ** Strings *)

Section StringFacts.

Lemma append_cons (c : ascii) (s t : string) :
  String c s +:+ t = String c (s +:+ t).
Proof. reflexivity. Qed.

Lemma append_nil_l (s : string) : "" +:+ s = s.
Proof. reflexivity. Qed.

Lemma append_nil_r (s : string) : s +:+ "" = s.
Proof. induction s as [|c s IH]; [done|]. by rewrite append_cons, IH. Qed.

Lemma append_assoc (s t u : string) : (s +:+ t) +:+ u = s +:+ t +:+ u.
Proof. induction s as [|c s IH]; [done|]. by rewrite !append_cons, IH. Qed.

Lemma push_char_append (s t : string) (c : ascii) :
  push_char s c +:+ t = s +:+ String c t.
Proof. unfold push_char. by rewrite append_assoc. Qed.

Lemma nonEmpty_true (s : string) : nonEmpty s = true <-> s <> "".
Proof.
  unfold nonEmpty. destruct (decide (s = "")) as [->|H].
  - split; [done|]. intros H. by destruct H.
  - by rewrite bool_decide_eq_false_2.
Qed.

Lemma trimStart_allSpace (s : string) : allSpace s = true -> trimStart s = "".
Proof.
  induction s as [|c s IH]; [done|]. simpl.
  intros [Hc Hs]%andb_true_iff. rewrite Hc. by apply IH.
Qed.

Lemma trimEnd_nil_inv (s : string) : trimEnd s = "" -> allSpace s = true.
Proof.
  induction s as [|c s IH]; [done|]. simpl.
  destruct (trimEnd s) eqn:E; [|done].
  destruct (is_js_space c); [|done]. intros _. by apply IH.
Qed.

Lemma trimStart_nil_inv (s : string) :
  trimEnd (trimStart s) = "" -> allSpace s = true.
Proof.
  induction s as [|c s IH]; [done|]. simpl.
  destruct (is_js_space c) eqn:Ec; [exact IH|].
  intros H. apply trimEnd_nil_inv in H. simpl in H. by rewrite Ec in H.
Qed.

(** A string is blank for [trim] exactly when it consists of white
    space. *)
Lemma trim_nil_iff (s : string) : trim s = "" <-> allSpace s = true.
Proof.
  split; [apply trimStart_nil_inv|].
  intros H. unfold trim. by rewrite trimStart_allSpace.
Qed.

Lemma allSpace_push (s : string) (c : ascii) :
  allSpace s = true -> is_js_space c = true -> allSpace (push_char s c) = true.
Proof.
  intros Hs Hc. unfold push_char. induction s as [|d s IH].
  - simpl. by rewrite Hc.
  - rewrite append_cons. simpl in *. apply andb_true_iff in Hs as [Hd Hs].
    rewrite Hd. by apply IH.
Qed.

End StringFacts.

(** ** The scanner *)

Section Scanner.

Implicit Types (rs : list (list string)) (cr : list string) (cf : string).

Lemma scan_unquoted prev rs cr cf (c : ascii) (rest : string) :
  scan prev (mkScanner rs cr cf false) (String c rest)
  = scan (Some c) (unquotedStep prev (mkScanner rs cr cf false) c) rest.
Proof. reflexivity. Qed.

Lemma scan_open_quote prev rs cr cf (rest : string) :
  scan prev (mkScanner rs cr cf false) (String dquote rest)
  = scan (Some dquote) (mkScanner rs cr cf true) rest.
Proof. reflexivity. Qed.

Lemma scan_comma prev rs cr cf (rest : string) :
  scan prev (mkScanner rs cr cf false) (String "," rest)
  = scan (Some comma) (mkScanner rs (cr ++ [cf]) "" false) rest.
Proof. reflexivity. Qed.

Lemma scan_LF prev rs cr cf (rest : string) :
  breaksRow prev = true ->
  scan prev (mkScanner rs cr cf false) (String LF rest)
  = scan (Some LF) (mkScanner (rs ++ [cr ++ [cf]]) [] "" false) rest.
Proof. intros H. rewrite scan_unquoted. unfold unquotedStep. simpl. by rewrite H. Qed.

Lemma scan_quoted_escape prev rs cr cf (rest : string) :
  scan prev (mkScanner rs cr cf true) (String dquote (String dquote rest))
  = scan (Some dquote) (mkScanner rs cr (push_char cf dquote) true) rest.
Proof. reflexivity. Qed.

Lemma scan_quoted_close prev rs cr cf (rest : string) :
  (forall r, rest <> String dquote r) ->
  scan prev (mkScanner rs cr cf true) (String dquote rest)
  = scan (Some dquote) (mkScanner rs cr cf false) rest.
Proof.
  intros Hrest. destruct rest as [|next rest']; [reflexivity|].
  simpl. destruct (decide (next = dquote)) as [->|Hn]; [|reflexivity].
  by destruct (Hrest rest').
Qed.

Lemma scan_quoted_char prev rs cr cf (c : ascii) (rest : string) :
  c <> dquote ->
  scan prev (mkScanner rs cr cf true) (String c rest)
  = scan (Some c) (mkScanner rs cr (push_char cf c) true) rest.
Proof. intros Hc. simpl. by rewrite decide_False. Qed.

Lemma lastOr_app prev (s t : string) :
  lastOr prev (s +:+ t) = lastOr (lastOr prev s) t.
Proof.
  revert prev. induction s as [|c s IH]; intros prev; [done|].
  rewrite append_cons. simpl. apply IH.
Qed.

(** A field written without quotes is read back character by character. *)
Lemma scan_plain (s : string) :
  needsQuoting s = false ->
  forall prev rs cr cf rest,
    scan prev (mkScanner rs cr cf false) (s +:+ rest)
    = scan (lastOr prev s) (mkScanner rs cr (cf +:+ s) false) rest.
Proof.
  induction s as [|c s IH]; intros Hs prev rs cr cf rest.
  - by rewrite append_nil_r.
  - simpl in Hs. apply orb_false_iff in Hs as [Hc Hs].
    apply orb_false_iff in Hc as [Hc Hcr]. apply orb_false_iff in Hc as [Hc Hlf].
    apply orb_false_iff in Hc as [Hdq Hcomma].
    apply bool_decide_eq_false in Hdq, Hcomma, Hlf, Hcr.
    rewrite append_cons, scan_unquoted. unfold unquotedStep.
    rewrite !decide_False by tauto. simpl.
    rewrite IH by done. by rewrite push_char_append.
Qed.

(** Inside quotes, the doubled quotes of the serialiser are read back as
    single ones, up to the closing quote. *)
Lemma scan_doubleQuotes (s : string) :
  forall prev rs cr cf rest,
    (forall r, rest <> String dquote r) ->
    scan prev (mkScanner rs cr cf true)
         (doubleQuotes s +:+ String dquote rest)
    = scan (Some dquote) (mkScanner rs cr (cf +:+ s) false) rest.
Proof.
  induction s as [|c s IH]; intros prev rs cr cf rest Hrest.
  - rewrite append_nil_l, append_nil_r. by apply scan_quoted_close.
  - simpl. destruct (decide (c = dquote)) as [->|Hc].
    + rewrite !append_cons, scan_quoted_escape, IH by done.
      by rewrite push_char_append.
    + rewrite append_cons, scan_quoted_char, IH by done.
      by rewrite push_char_append.
Qed.

End Scanner.

(** ** Blank input *)

Section BlankInput.

Lemma is_js_space_plain (c : ascii) :
  is_js_space c = true -> c <> dquote /\ c <> comma.
Proof. intros H. split; intros ->; discriminate H. Qed.

Lemma scan_allSpace (s : string) :
  allSpace s = true ->
  forall prev rs cf, blankRows rs -> allSpace cf = true ->
    exists rs' cf',
      scan prev (mkScanner rs [] cf false) s = mkScanner rs' [] cf' false
      /\ blankRows rs' /\ allSpace cf' = true.
Proof.
  induction s as [|c s IH]; intros Hs prev rs cf Hrs Hcf.
  - exists rs, cf. done.
  - simpl in Hs. apply andb_true_iff in Hs as [Hc Hs].
    destruct (is_js_space_plain c Hc) as [Hdq Hcomma].
    rewrite scan_unquoted. unfold unquotedStep.
    rewrite (decide_False (P := c = dquote)) by done.
    rewrite (decide_False (P := c = comma)) by done.
    destruct (decide (c = LF \/ c = CR)) as [_|_].
    + destruct (breaksRow prev); simpl.
      * apply IH; [done| |done]. apply Forall_app. split; [done|].
        apply Forall_singleton. by exists cf.
      * by apply IH.
    + simpl. apply IH; [done|done|]. by apply allSpace_push.
Qed.

Lemma filter_blankRows (rs : list (list string)) :
  blankRows rs -> List.filter isNonEmptyRow rs = [].
Proof.
  induction 1 as [|row rs (f & -> & Hf) _ IH]; [done|].
  simpl. unfold isNonEmptyRow at 1. simpl.
  apply trim_nil_iff in Hf. rewrite Hf. exact IH.
Qed.

Lemma parseCsvTable_allSpace (s : string) :
  allSpace s = true -> parseCsvTable s = {| headers := []; rows := [] |}.
Proof.
  intros Hs. unfold parseCsvTable, initialScanner.
  destruct (scan_allSpace s Hs None [] "" ltac:(constructor) eq_refl)
    as (rs' & cf' & -> & Hrs & Hcf).
  assert (Hflush : blankRows (flush (mkScanner rs' [] cf' false))).
  { unfold flush. simpl. rewrite orb_false_r.
    destruct (nonEmpty cf'); [|done].
    apply Forall_app. split; [done|]. apply Forall_singleton. by exists cf'. }
  by rewrite (filter_blankRows _ Hflush).
Qed.

End BlankInput.

(** ** Reading back what the serialiser wrote *)

Section RoundTrip.

Implicit Types (rs : list (list string)) (cr row front : list string)
  (cf lastc : string).

Lemma join_cons (sep x : string) (l : list string) :
  l <> [] -> join sep (x :: l) = x +:+ sep +:+ join sep l.
Proof. by destruct l. Qed.

Lemma serializeRow_cons (c : string) row :
  row <> [] ->
  serializeRow (c :: row) = escapeField (Str c) +:+ "," +:+ serializeRow row.
Proof.
  intros H. unfold serializeRow. rewrite !fmap_cons.
  apply join_cons. by destruct row.
Qed.

Lemma generateCsv_lines (hs : list string) rs :
  generateCsv (textTable hs rs)
  = join (String LF "") (serializeRow <$> (hs :: rs)).
Proof.
  unfold generateCsv, textTable. simpl. by rewrite <- list_fmap_compose.
Qed.

Lemma lastOr_quoted prev (s : string) :
  lastOr prev (String dquote (s +:+ String dquote "")) = Some dquote.
Proof. simpl. by rewrite lastOr_app. Qed.

Lemma scan_escapeField (s : string) prev rs cr cf (rest : string) :
  (forall r, rest <> String dquote r) ->
  scan prev (mkScanner rs cr cf false) (escapeField (Str s) +:+ rest)
  = scan (lastOr prev (escapeField (Str s)))
         (mkScanner rs cr (cf +:+ s) false) rest.
Proof.
  intros Hrest. unfold escapeField. simpl js_String.
  destruct (needsQuoting s) eqn:E.
  - rewrite lastOr_quoted, append_cons, append_assoc, append_cons,
      append_nil_l, scan_open_quote.
    by apply scan_doubleQuotes.
  - by apply scan_plain.
Qed.

Lemma breaksRow_plain (s : string) :
  needsQuoting s = false ->
  forall prev, breaksRow prev = true \/ s <> "" ->
    breaksRow (lastOr prev s) = true.
Proof.
  induction s as [|c s IH]; intros Hs prev Hor.
  - by destruct Hor.
  - simpl in *. apply orb_false_iff in Hs as [Hc Hs]. apply IH; [done|].
    left. apply orb_false_iff in Hc as [Hc Hcr].
    apply orb_false_iff in Hc as [_ Hlf]. simpl. by rewrite Hlf, Hcr.
Qed.

Lemma breaksRow_escapeField (s : string) prev :
  breaksRow prev = true \/ s <> "" ->
  breaksRow (lastOr prev (escapeField (Str s))) = true.
Proof.
  intros Hor. unfold escapeField. simpl js_String.
  destruct (needsQuoting s) eqn:E.
  - by rewrite lastOr_quoted.
  - by apply breaksRow_plain.
Qed.

Lemma lastOr_serializeRow_cons prev (c : string) row :
  row <> [] ->
  lastOr prev (serializeRow (c :: row))
  = lastOr (Some comma) (serializeRow row).
Proof.
  intros H. rewrite serializeRow_cons by done. by rewrite !lastOr_app.
Qed.

Lemma breaksRow_serializeRow row :
  forall prev, breaksRow prev = true ->
    breaksRow (lastOr prev (serializeRow row)) = true.
Proof.
  induction row as [|c row IH]; intros prev Hprev; [done|].
  destruct row as [|c' row].
  - apply breaksRow_escapeField. by left.
  - rewrite lastOr_serializeRow_cons by done. by apply IH.
Qed.

(** A line ends with a character after which LF starts a new row. *)
Lemma breaksRow_line row prev :
  isNonEmptyRow row = true ->
  breaksRow (lastOr prev (serializeRow row)) = true.
Proof.
  intros Hrow. destruct row as [|c [|c' row]].
  - discriminate Hrow.
  - apply breaksRow_escapeField. right. intros ->. discriminate Hrow.
  - rewrite lastOr_serializeRow_cons by done. by apply breaksRow_serializeRow.
Qed.

Lemma scan_row front :
  forall lastc prev rs cr (rest : string),
    (forall r, rest <> String dquote r) ->
    scan prev (mkScanner rs cr "" false)
         (serializeRow (front ++ [lastc]) +:+ rest)
    = scan (lastOr prev (serializeRow (front ++ [lastc])))
           (mkScanner rs (cr ++ front) lastc false) rest.
Proof.
  induction front as [|c front IH]; intros lastc prev rs cr rest Hrest.
  - rewrite app_nil_r. by apply scan_escapeField.
  - assert (Hne : front ++ [lastc] <> []) by (by destruct front).
    rewrite <- app_comm_cons, lastOr_serializeRow_cons by done.
    rewrite serializeRow_cons, !append_assoc by done.
    rewrite scan_escapeField by done.
    rewrite append_cons, !append_nil_l, scan_comma.
    rewrite IH by done. by rewrite <- app_assoc.
Qed.

Lemma row_split {A} (l : list A) : l <> [] -> exists l' x, l = l' ++ [x].
Proof.
  induction l as [|x l IH] using rev_ind; [done|]. intros _. by exists l, x.
Qed.

Lemma isNonEmptyRow_nonnil row : isNonEmptyRow row = true -> row <> [].
Proof. by intros H ->. Qed.

(** The scanner on the text written for a list of lines: every line but
    the last has become a row, and the last line is held in the current
    row and field. *)
Lemma scan_lines (lines : list (list string)) :
  Forall (fun row => isNonEmptyRow row = true) lines ->
  forall prev rs front lastc,
    scan prev (mkScanner rs [] "" false)
         (join (String LF "") (serializeRow <$> (lines ++ [front ++ [lastc]])))
    = mkScanner (rs ++ lines) front lastc false.
Proof.
  induction 1 as [|row lines Hrow _ IH]; intros prev rs front lastc.
  - change (join _ (serializeRow <$> ([] ++ [front ++ [lastc]])))
      with (serializeRow (front ++ [lastc])).
    rewrite <- (append_nil_r (serializeRow (front ++ [lastc]))).
    rewrite scan_row by done. simpl. by rewrite app_nil_r.
  - destruct (row_split row (isNonEmptyRow_nonnil _ Hrow)) as (f & l & ->).
    rewrite <- app_comm_cons, fmap_cons.
    rewrite join_cons by (by destruct lines).
    rewrite scan_row by done.
    rewrite append_cons, !append_nil_l, scan_LF by (by apply breaksRow_line).
    rewrite IH. by rewrite <- app_assoc.
Qed.

Lemma filter_all_true {A} (p : A -> bool) (l : list A) :
  Forall (fun x => p x = true) l -> List.filter p l = l.
Proof. induction 1 as [|x l Hx _ IH]; [done|]. simpl. by rewrite Hx, IH. Qed.

Lemma sanitizeRow_exact (width : nat) row :
  length row = width -> sanitizeRow width row = row.
Proof.
  intros <-. rewrite sanitizeRow_spec, take_ge, Nat.sub_diag by lia.
  apply app_nil_r.
Qed.

Lemma parseCsvTable_generateCsv (hs : list string) rs :
  Forall (fun row => length row = length hs) rs ->
  Forall (fun row => isNonEmptyRow row = true) (hs :: rs) ->
  parseCsvTable (generateCsv (textTable hs rs))
  = textTable hs rs.
Proof.
  intros Hrect Hrows. rewrite generateCsv_lines. unfold parseCsvTable.
  destruct (row_split (hs :: rs) ltac:(done)) as (lines & final & Hsplit).
  rewrite Hsplit in Hrows |- *. apply Forall_app in Hrows as [Hlines Hfinal].
  apply Forall_inv in Hfinal.
  destruct (row_split final (isNonEmptyRow_nonnil _ Hfinal))
    as (front & lastc & ->).
  unfold initialScanner. rewrite scan_lines by done. unfold flush. simpl.
  assert (Hflush : nonEmpty lastc || (0 <? length front)%nat = true).
  { destruct front as [|c front]; [|by rewrite orb_true_r].
    rewrite orb_false_r. apply nonEmpty_true. intros ->. discriminate Hfinal. }
  rewrite Hflush, filter_all_true, <- Hsplit.
  - unfold textTable. f_equal. apply Forall_fmap_ext_1. eapply Forall_impl; [exact Hrect|].
    intros row Hrow. simpl. by rewrite sanitizeRow_exact.
  - apply Forall_app. split; [done|]. by apply Forall_singleton.
Qed.

End RoundTrip.

(** ** Claims about the parsers *)

Section ParserClaims.

(** C9.  For the empty string and for every input that [trim] reduces to
    the empty string, [parseCsv] resolves, and it resolves with the table
    that has no headers and no rows.  It is the caller, [handlePastedData],
    that then reports the table as empty or invalid. *)
Theorem parseCsv_blank_input (csvText : string) :
  trim csvText = "" ->
  parseCsv csvText = Resolved {| headers := []; rows := [] |}
  /\ handlePastedData csvText = (None, Some pastedEmptyMessage).
Proof.
  intros H. assert (Hparse : parseCsv csvText
                             = Resolved {| headers := []; rows := [] |}).
  { unfold parseCsv. f_equal.
    apply parseCsvTable_allSpace. by apply trim_nil_iff. }
  split; [exact Hparse|]. unfold handlePastedData. by rewrite Hparse.
Qed.

Lemma parseCsv_blank_input_witness :
  parseCsv "" = Resolved {| headers := []; rows := [] |}
  /\ parseCsv (String " " (String LF (String CR (String "009" " "))))
     = Resolved {| headers := []; rows := [] |}.
Proof.
  split; apply parseCsv_blank_input; vm_compute; reflexivity.
Defined.

(** C8.  Inside a quoted field two consecutive double quotes add one double
    quote to the field and leave the scanner inside the field; a double
    quote that is not followed by another one ends the quoted field without
    adding anything.  Hence a quoted field written with every quote doubled
    is read back as the original text; in the example of the specification,
    where the word hi stands between doubled quotes inside a quoted field,
    the cell read has hi between single double quotes. *)
Theorem quoted_field_quotes :
  (forall prev rs cr cf rest,
     scan prev (mkScanner rs cr cf true) (String dquote (String dquote rest))
     = scan (Some dquote) (mkScanner rs cr (cf +:+ String dquote "") true) rest)
  /\ (forall prev rs cr cf rest,
        (forall r, rest <> String dquote r) ->
        scan prev (mkScanner rs cr cf true) (String dquote rest)
        = scan (Some dquote) (mkScanner rs cr cf false) rest)
  /\ (forall s prev rs cr cf rest,
        (forall r, rest <> String dquote r) ->
        scan prev (mkScanner rs cr cf false)
             (String dquote (doubleQuotes s +:+ String dquote rest))
        = scan (Some dquote) (mkScanner rs cr (cf +:+ s) false) rest)
  /\ parseCsv
       (String dquote
          ("He said " +:+
           String dquote (String dquote
             ("hi" +:+ String dquote (String dquote (String dquote ""))))))
     = Resolved {| headers := ["He said " +:+ String dquote ("hi" +:+ String dquote "")];
                   rows := [] |}.
Proof.
  split; [|split; [|split]].
  - intros. apply scan_quoted_escape.
  - intros. by apply scan_quoted_close.
  - intros s prev rs cr cf rest Hrest. rewrite scan_open_quote.
    by apply scan_doubleQuotes.
  - vm_compute. reflexivity.
Qed.

Lemma quoted_field_quotes_witness :
  scan None (mkScanner [] [] "" false)
       (String dquote (doubleQuotes (String dquote "a") +:+ String dquote ",b"))
  = mkScanner [] [String dquote "a"] "b" false.
Proof.
  destruct quoted_field_quotes as (_ & _ & H & _).
  rewrite H.
  - vm_compute. reflexivity.
  - intros r Hr. discriminate Hr.
Defined.

(** C3, as the specification states it, fails: a rectangular one-column
    table of strings whose data cell is the empty string is written as the
    header line followed by an empty line, and the parser reads no row from
    an empty line. *)
Lemma roundtrip_loses_empty_single_cell :
  rectangular (textTable ["h"] [[""]])
  /\ parseCsv (generateCsv (textTable ["h"] [[""]]))
     = Resolved (textTable ["h"] [])
  /\ parseCsv (generateCsv (textTable ["h"] [[""]]))
     <> Resolved (textTable ["h"] [[""]]).
Proof.
  split; [|split].
  - apply Forall_singleton. reflexivity.
  - vm_compute. reflexivity.
  - vm_compute. discriminate.
Qed.

(** C3, amended.  Parsing the serialised form reproduces every rectangular
    table of strings in which the header row and every data row would pass
    the parser's filter of empty rows, that is, has two or more cells or has
    one cell that [trim] does not reduce to the empty string; it also
    reproduces the table without headers and rows. *)
Theorem generateCsv_parseCsv_roundtrip (hs : list string)
    (rs : list (list string)) :
  rectangular (textTable hs rs) ->
  (hs = [] /\ rs = []) \/ Forall (fun row => isNonEmptyRow row = true) (hs :: rs) ->
  parseCsv (generateCsv (textTable hs rs)) = Resolved (textTable hs rs).
Proof.
  intros Hrect [[-> ->]|Hrows]; [reflexivity|].
  unfold parseCsv. f_equal. apply parseCsvTable_generateCsv; [|done].
  unfold rectangular, textTable in Hrect. simpl in Hrect.
  apply Forall_fmap in Hrect. eapply Forall_impl; [exact Hrect|].
  intros row Hrow. simpl in Hrow. by rewrite length_fmap in Hrow.
Qed.

Lemma generateCsv_parseCsv_roundtrip_witness :
  parseCsv
    (generateCsv
       (textTable ["id"; "note"]
          [["1"; ""]; [String dquote "a,b"; String LF (String CR " ")];
           [""; ""]]))
  = Resolved
      (textTable ["id"; "note"]
         [["1"; ""]; [String dquote "a,b"; String LF (String CR " ")];
          [""; ""]]).
Proof.
  apply generateCsv_parseCsv_roundtrip.
  - repeat constructor.
  - right. repeat constructor.
Defined.

(** C7.  Each data row is reconciled to the width of the header row: a
    longer row keeps its first cells, a shorter row is padded at the end with
    empty strings.  The delimited-text parser and the spreadsheet normaliser
    do this alike on rows of strings, and the rows of the tables they return
    are the reconciled data rows. *)
Theorem row_reconciliation :
  (forall width (row : list string),
     sanitizeRow width row
     = take width row ++ replicate (width - length row) ""
     /\ length (sanitizeRow width row) = width)
  /\ (forall width (row : list string),
        sanitizeSheetRow width (Str <$> row) = Str <$> sanitizeRow width row)
  /\ (forall csvText headerRow dataRows,
        List.filter isNonEmptyRow (flush (scan None initialScanner csvText))
        = headerRow :: dataRows ->
        parseCsvTable csvText
        = textTable headerRow
            ((fun row => take (length headerRow) row
                         ++ replicate (length headerRow - length row) "")
             <$> dataRows))
  /\ (forall sheetRows headerRow (dataRows : list (list string)),
        List.filter (existsb hasContent) sheetRows
        = headerRow :: ((fun row : list string => Str <$> row) <$> dataRows) ->
        normalizeSheet sheetRows
        = textTable (headerText <$> headerRow)
            ((fun row => take (length headerRow) row
                         ++ replicate (length headerRow - length row) "")
             <$> dataRows)).
Proof.
  split; [|split; [|split]].
  - intros width row. split; [apply sanitizeRow_spec|apply sanitizeRow_length].
  - apply sanitizeSheetRow_strings.
  - intros csvText headerRow dataRows H. unfold parseCsvTable, textTable.
    rewrite H. f_equal. rewrite <- list_fmap_compose.
    apply list_fmap_ext. intros i row _. simpl. by rewrite sanitizeRow_spec.
  - intros sheetRows headerRow dataRows H. unfold normalizeSheet, textTable.
    destruct sheetRows as [|r0 rest]; [discriminate H|].
    rewrite H. simpl. f_equal. rewrite <- !list_fmap_compose.
    apply list_fmap_ext. intros i row _. simpl.
    by rewrite sanitizeSheetRow_strings, sanitizeRow_spec, length_fmap.
Qed.

Lemma row_reconciliation_witness :
  parseCsvTable "a,b,c,d
c1,c2
1,2,3,4,5,6"
  = textTable ["a"; "b"; "c"; "d"]
      [["c1"; "c2"; ""; ""]; ["1"; "2"; "3"; "4"]]
  /\ normalizeSheet
       [[Str "a"; Str "b"; Str "c"; Str "d"]; [Str "c1"; Str "c2"];
        [Str "1"; Str "2"; Str "3"; Str "4"; Str "5"; Str "6"]]
     = textTable ["a"; "b"; "c"; "d"]
         [["c1"; "c2"; ""; ""]; ["1"; "2"; "3"; "4"]].
Proof.
  destruct row_reconciliation as (_ & _ & Hcsv & Hsheet). split.
  - rewrite (Hcsv _ ["a"; "b"; "c"; "d"]
               [["c1"; "c2"]; ["1"; "2"; "3"; "4"; "5"; "6"]]);
      vm_compute; reflexivity.
  - rewrite (Hsheet _ [Str "a"; Str "b"; Str "c"; Str "d"]
               [["c1"; "c2"]; ["1"; "2"; "3"; "4"; "5"; "6"]]);
      vm_compute; reflexivity.
Defined.

End ParserClaims.

(** ** The source dispatcher *)

Section DispatcherFacts.

Lemma toLowerCase_app (s t : string) :
  toLowerCase (s +:+ t) = toLowerCase s +:+ toLowerCase t.
Proof.
  induction s as [|c s IH]; [done|]. rewrite append_cons. simpl.
  by rewrite IH.
Qed.

Lemma endsWith_unfold (s suffix : string) :
  endsWith s suffix
  = if decide (s = suffix) then true
    else match s with
         | "" => false
         | String _ s' => endsWith s' suffix
         end.
Proof. by destruct s. Qed.

Lemma length_append (s t : string) :
  String.length (s +:+ t) = (String.length s + String.length t)%nat.
Proof. induction s as [|c s IH]; [done|]. rewrite append_cons. simpl. by rewrite IH. Qed.

(** Only the end of the name decides. *)
Lemma endsWith_app (base ext suffix : string) :
  (String.length suffix <= String.length ext)%nat ->
  endsWith (base +:+ ext) suffix = endsWith ext suffix.
Proof.
  intros Hlen. induction base as [|c base IH]; [done|].
  rewrite append_cons, endsWith_unfold. rewrite decide_False; [exact IH|].
  intros H. apply (f_equal String.length) in H. simpl in H.
  rewrite length_append in H. lia.
Qed.

Lemma endsWith_refl (s : string) : endsWith s s = true.
Proof. rewrite endsWith_unfold. by rewrite decide_True. Qed.

Lemma endsWith_inv (s suffix : string) :
  endsWith s suffix = true -> exists front, s = front +:+ suffix.
Proof.
  induction s as [|c s IH]; rewrite endsWith_unfold.
  - destruct (decide ("" = suffix)) as [<-|_]; [by exists ""|done].
  - destruct (decide (String c s = suffix)) as [<-|_]; [by exists ""|].
    intros H. destruct (IH H) as [front ->]. by exists (String c front).
Qed.

(** A name whose last character differs from the last character of the
    suffix does not end with it. *)
Lemma endsWith_mismatch (base ext suffix : string) :
  ext <> "" -> suffix <> "" -> lastOr None ext <> lastOr None suffix ->
  endsWith (base +:+ ext) suffix = false.
Proof.
  intros Hext Hsuf Hlast. destruct (endsWith (base +:+ ext) suffix) eqn:E; [|done].
  apply endsWith_inv in E as [front E].
  apply (f_equal (lastOr None)) in E. rewrite !lastOr_app in E.
  destruct ext as [|a ext]; [done|]. destruct suffix as [|b suffix]; [done|].
  by destruct Hlast.
Qed.

End DispatcherFacts.

Section DispatcherClaims.

Variable xlsxSheets : list ascii -> option (list (list (list cell))).

(** C10.  [parseFile] looks only at the lower-cased name.  A name ending in
    .csv goes to [parseCsv] on the text of the file; a name ending in .xlsx
    or .xls goes to [parseExcel]; every other name is rejected with the
    unsupported-format message and no read of the file's content.  The
    letter case of the extension is immaterial: .CSV, .XLSX and .XLS are
    dispatched as their lower-case forms are, and .txt is rejected. *)
Theorem parseFile_dispatch (file : File) :
  (endsWith (toLowerCase (fileName file)) ".csv" = true ->
     parseFile xlsxSheets file = ([ReadText], parseCsv (fileText file)))
  /\ (endsWith (toLowerCase (fileName file)) ".csv" = false ->
      endsWith (toLowerCase (fileName file)) ".xlsx"
      || endsWith (toLowerCase (fileName file)) ".xls" = true ->
      parseFile xlsxSheets file = parseExcel xlsxSheets file)
  /\ (endsWith (toLowerCase (fileName file)) ".csv" = false ->
      endsWith (toLowerCase (fileName file)) ".xlsx" = false ->
      endsWith (toLowerCase (fileName file)) ".xls" = false ->
      parseFile xlsxSheets file = ([], Rejected unsupportedMessage))
  /\ (forall base ext, fileName file = base +:+ ext ->
        (toLowerCase ext = ".csv" ->
           parseFile xlsxSheets file = ([ReadText], parseCsv (fileText file)))
        /\ (toLowerCase ext = ".xlsx" \/ toLowerCase ext = ".xls" ->
            parseFile xlsxSheets file = parseExcel xlsxSheets file)
        /\ (toLowerCase ext = ".txt" ->
            parseFile xlsxSheets file = ([], Rejected unsupportedMessage))).
Proof.
  unfold parseFile. split; [|split; [|split]].
  - by intros ->.
  - by intros -> ->.
  - by intros -> -> ->.
  - intros base ext ->. rewrite toLowerCase_app. split; [|split].
    + intros ->. by rewrite endsWith_app, endsWith_refl by (simpl; lia).
    + intros [-> | ->].
      * rewrite !endsWith_app by (simpl; lia). reflexivity.
      * rewrite (endsWith_app _ ".xls" ".csv"), (endsWith_app _ ".xls" ".xls")
          by (simpl; lia).
        rewrite endsWith_refl, orb_true_r. reflexivity.
    + intros ->. by rewrite !endsWith_mismatch.
Qed.

(** C4.  The tables returned by the delimited-text parser, by the
    spreadsheet normaliser and by the join are rectangular: every row is as
    long as the header row.  For the join this is stated for rectangular
    input tables. *)
Theorem produced_tables_rectangular :
  (forall csvText,
     exists t, parseCsv csvText = Resolved t /\ rectangular t)
  /\ (forall sheetRows, rectangular (normalizeSheet sheetRows))
  /\ (forall file t,
        snd (parseExcel xlsxSheets file) = Resolved t -> rectangular t)
  /\ (forall tA tB lc mc rc,
        rectangular tA -> rectangular tB ->
        rectangular (Join.vlookup tA tB lc mc rc)).
Proof.
  split; [|split; [|split]].
  - intros csvText. eexists. split; [reflexivity|].
    apply parseCsvTable_rectangular.
  - apply normalizeSheet_rectangular.
  - intros file t. unfold parseExcel. simpl.
    destruct (xlsxSheets (fileBytes file)) as [[|sheetRows sheets]|];
      intros [= <-].
    + constructor.
    + apply normalizeSheet_rectangular.
  - intros tA tB lc mc rc HA _. by apply vlookup_rectangular.
Qed.

End DispatcherClaims.

Lemma parseFile_dispatch_witness :
  parseFile (fun _ => None)
    {| fileName := "Report.CSV"; fileText := "a,b"; fileBytes := [] |}
  = ([ReadText], parseCsv "a,b")
  /\ parseFile (fun _ => None)
       {| fileName := "Book.XLSX"; fileText := ""; fileBytes := [] |}
     = ([ReadArrayBuffer], Rejected excelMessage)
  /\ parseFile (fun _ => None)
       {| fileName := "notes.txt"; fileText := "a,b"; fileBytes := [] |}
     = ([], Rejected unsupportedMessage).
Proof.
  split; [|split].
  - destruct (parseFile_dispatch (fun _ => None)
                {| fileName := "Report.CSV"; fileText := "a,b"; fileBytes := [] |})
      as (_ & _ & _ & H).
    destruct (H "Report" ".CSV" eq_refl) as (Hcsv & _). by apply Hcsv.
  - destruct (parseFile_dispatch (fun _ => None)
                {| fileName := "Book.XLSX"; fileText := ""; fileBytes := [] |})
      as (_ & _ & _ & H).
    destruct (H "Book" ".XLSX" eq_refl) as (_ & Hx & _).
    rewrite Hx; [reflexivity|]. by left.
  - destruct (parseFile_dispatch (fun _ => None)
                {| fileName := "notes.txt"; fileText := "a,b"; fileBytes := [] |})
      as (_ & _ & _ & H).
    destruct (H "notes" ".txt" eq_refl) as (_ & _ & Ht). by apply Ht.
Defined.

Lemma produced_tables_rectangular_witness :
  rectangular (Join.vlookup Sample.left Sample.right "ID" "ID" "Score").
Proof.
  destruct (produced_tables_rectangular (fun _ => None)) as (_ & _ & _ & H).
  apply H; repeat constructor.
Defined.

(** * Further properties of the pipeline *)

(** ** Serialising cells that are not strings *)

Section AnyCells.

Lemma escapeField_fieldText (c : cell) :
  escapeField c = escapeField (Str (fieldText c)).
Proof. destruct c as [| |s|[|]]; reflexivity. Qed.

Lemma generateCsv_fieldText (t : TableData) :
  generateCsv t
  = generateCsv
      (textTable (headers t)
         ((fun row : list cell => fieldText <$> row) <$> rows t)).
Proof.
  unfold generateCsv, textTable. cbn [headers rows]. do 2 f_equal.
  rewrite <- !list_fmap_compose. apply list_fmap_ext. intros i row _. simpl.
  f_equal. rewrite <- !list_fmap_compose. apply list_fmap_ext.
  intros j c _. simpl. apply escapeField_fieldText.
Qed.

(** X1.  Serialising a rectangular table with cells of any kind and parsing
    the text gives the table of the cells' texts: [undefined] and [null]
    come back as empty strings, booleans as true and false, strings
    unchanged.  The rows of texts have to pass the parser's filter of empty
    rows. *)
Theorem generateCsv_parseCsv_any_cells (t : TableData) :
  rectangular t ->
  Forall (fun row => isNonEmptyRow row = true)
         (headers t :: ((fun row : list cell => fieldText <$> row) <$> rows t)) ->
  parseCsv (generateCsv t)
  = Resolved (textTable (headers t)
                ((fun row : list cell => fieldText <$> row) <$> rows t)).
Proof.
  intros Hrect Hrows. rewrite generateCsv_fieldText. unfold parseCsv. f_equal.
  apply parseCsvTable_generateCsv; [|done].
  apply Forall_fmap. eapply Forall_impl; [exact Hrect|].
  intros row Hrow. simpl. by rewrite length_fmap.
Qed.

Lemma generateCsv_parseCsv_any_cells_witness :
  parseCsv
    (generateCsv
       {| headers := ["k"; "v"];
          rows := [[Str "a"; Undefined]; [Null; Bool true];
                   [Bool false; Str "x,y"]] |})
  = Resolved (textTable ["k"; "v"]
                [["a"; ""]; [""; "true"]; ["false"; "x,y"]]).
Proof.
  apply (generateCsv_parseCsv_any_cells
           {| headers := ["k"; "v"];
              rows := [[Str "a"; Undefined]; [Null; Bool true];
                       [Bool false; Str "x,y"]] |});
    repeat constructor.
Defined.

End AnyCells.

(** ** Line endings and unclosed quotes *)

Section LineEndings.

Implicit Types (rs : list (list string)) (cr front : list string)
  (cf lastc : string).

Lemma scan_CR prev rs cr cf (rest : string) :
  breaksRow prev = true ->
  scan prev (mkScanner rs cr cf false) (String CR rest)
  = scan (Some CR) (mkScanner (rs ++ [cr ++ [cf]]) [] "" false) rest.
Proof. intros H. rewrite scan_unquoted. unfold unquotedStep. simpl. by rewrite H. Qed.

Lemma allNewline_cons (c : ascii) (s : string) :
  allNewline (String c s) = true -> (c = LF \/ c = CR) /\ allNewline s = true.
Proof.
  simpl. intros [Hc Hs]%andb_true_iff. split; [|done].
  apply orb_true_iff in Hc as [Hc|Hc]; apply bool_decide_eq_true in Hc; auto.
Qed.

Lemma allNewline_no_quote (s : string) :
  allNewline s = true -> forall r, s <> String dquote r.
Proof.
  intros Hs r ->. apply allNewline_cons in Hs as [[H|H] _]; discriminate H.
Qed.

(** After a line break, further CR and LF characters change nothing. *)
Lemma scan_newlines_idle (s : string) :
  allNewline s = true ->
  forall prev rs cr cf (rest : string),
    breaksRow prev = false ->
    scan prev (mkScanner rs cr cf false) (s +:+ rest)
    = scan (lastOr prev s) (mkScanner rs cr cf false) rest
    /\ breaksRow (lastOr prev s) = false.
Proof.
  induction s as [|c s IH]; intros Hs prev rs cr cf rest Hprev; [done|].
  apply allNewline_cons in Hs as [Hc Hs].
  rewrite append_cons, scan_unquoted. unfold unquotedStep.
  destruct Hc as [-> | ->]; simpl; rewrite Hprev; by apply IH.
Qed.

(** A non-empty run of CR and LF characters after a field ends the row
    once. *)
Lemma scan_separator (sep : string) :
  allNewline sep = true -> sep <> "" ->
  forall prev rs cr cf (rest : string),
    breaksRow prev = true ->
    scan prev (mkScanner rs cr cf false) (sep +:+ rest)
    = scan (lastOr prev sep) (mkScanner (rs ++ [cr ++ [cf]]) [] "" false) rest
    /\ breaksRow (lastOr prev sep) = false.
Proof.
  intros Hsep Hne prev rs cr cf rest Hprev.
  destruct sep as [|c sep]; [done|].
  apply allNewline_cons in Hsep as [Hc Hsep]. rewrite append_cons. simpl lastOr.
  destruct Hc as [-> | ->].
  - rewrite scan_LF by done. by apply scan_newlines_idle.
  - rewrite scan_CR by done. by apply scan_newlines_idle.
Qed.

Lemma scan_lines_sep (sep : string) (lines : list (list string)) :
  allNewline sep = true -> sep <> "" ->
  Forall (fun row => isNonEmptyRow row = true) lines ->
  forall prev rs front lastc (rest : string),
    (forall r, rest <> String dquote r) ->
    exists p,
      scan prev (mkScanner rs [] "" false)
           (join sep (serializeRow <$> (lines ++ [front ++ [lastc]])) +:+ rest)
      = scan (lastOr p (serializeRow (front ++ [lastc])))
             (mkScanner (rs ++ lines) front lastc false) rest.
Proof.
  intros Hsep Hne. induction 1 as [|row lines Hrow _ IH];
    intros prev rs front lastc rest Hrest.
  - exists prev.
    change (join _ (serializeRow <$> ([] ++ [front ++ [lastc]])))
      with (serializeRow (front ++ [lastc])).
    rewrite scan_row by done. by rewrite app_nil_r.
  - destruct (row_split row (isNonEmptyRow_nonnil _ Hrow)) as (f & l & ->).
    rewrite <- app_comm_cons, fmap_cons.
    rewrite join_cons by (by destruct lines). rewrite !append_assoc.
    rewrite scan_row.
    + change ([] ++ f) with f.
      destruct (scan_separator sep Hsep Hne
                  (lastOr prev (serializeRow (f ++ [l]))) rs f l
                  (join sep (serializeRow <$> (lines ++ [front ++ [lastc]]))
                   +:+ rest) (breaksRow_line _ _ Hrow)) as [Heq _].
      rewrite Heq.
      destruct (IH (lastOr (lastOr prev (serializeRow (f ++ [l]))) sep)
                  (rs ++ [f ++ [l]]) front lastc rest Hrest) as [p Hp].
      rewrite Hp. exists p. by rewrite <- app_assoc.
    + destruct sep as [|c sep']; [done|]. rewrite append_cons.
      apply allNewline_cons in Hsep as [[-> | ->] _]; intros r [=].
Qed.

Lemma filter_head {A} (p : A -> bool) (l l' : list A) (x : A) :
  List.filter p l = x :: l' -> p x = true.
Proof.
  intros H. assert (Hin : In x (List.filter p l)) by (rewrite H; by left).
  by apply filter_In in Hin as [_ Hx].
Qed.

(** The table made from the rows the scanner has produced. *)
Lemma parseCsvTable_of_flush (csvText : string) (hs : list string) rs :
  flush (scan None initialScanner csvText) = hs :: rs ->
  Forall (fun row => isNonEmptyRow row = true) (hs :: rs) ->
  parseCsvTable csvText = textTable hs (sanitizeRow (length hs) <$> rs).
Proof.
  intros Hflush Hrows. unfold parseCsvTable, textTable.
  rewrite Hflush, filter_all_true by done. f_equal.
  by rewrite <- list_fmap_compose.
Qed.

Lemma sanitizeRow_rectangular (hs : list string) rs :
  Forall (fun row => length row = length hs) rs ->
  sanitizeRow (length hs) <$> rs = rs.
Proof.
  intros H. rewrite <- (list_fmap_id rs) at 2. apply Forall_fmap_ext_1.
  eapply Forall_impl; [exact H|]. intros row Hrow. by apply sanitizeRow_exact.
Qed.

Lemma parseCsvTable_lines (hs : list string) (rs : list (list string))
    (head sep tail : string) :
  allNewline head = true -> allNewline sep = true -> sep <> "" ->
  allNewline tail = true ->
  Forall (fun row => length row = length hs) rs ->
  Forall (fun row => isNonEmptyRow row = true) (hs :: rs) ->
  parseCsvTable (head +:+ join sep (serializeRow <$> (hs :: rs)) +:+ tail)
  = textTable hs rs.
Proof.
  intros Hhead Hsep Hne Htail Hrect Hrows.
  rewrite <- (sanitizeRow_rectangular hs rs Hrect) at 2.
  apply parseCsvTable_of_flush; [|done].
  unfold initialScanner.
  destruct (scan_newlines_idle head Hhead None [] [] ""
              (join sep (serializeRow <$> (hs :: rs)) +:+ tail) eq_refl)
    as [-> _].
  destruct (row_split (hs :: rs) ltac:(done)) as (lines & final & Hsplit).
  rewrite Hsplit in Hrows |- *. apply Forall_app in Hrows as [Hlines Hfinal].
  apply Forall_inv in Hfinal.
  destruct (row_split final (isNonEmptyRow_nonnil _ Hfinal))
    as (front & lastc & ->).
  destruct (scan_lines_sep sep lines Hsep Hne Hlines (lastOr None head) []
              front lastc tail (allNewline_no_quote tail Htail)) as [p ->].
  destruct tail as [|c tail].
  - simpl. unfold flush. simpl.
    assert (Hflush : nonEmpty lastc || (0 <? length front)%nat = true).
    { destruct front as [|c front]; [|by rewrite orb_true_r].
      rewrite orb_false_r. apply nonEmpty_true. intros ->. discriminate Hfinal. }
    by rewrite Hflush.
  - rewrite <- (append_nil_r (String c tail)).
    change ([] ++ lines) with lines.
    destruct (scan_separator (String c tail) Htail ltac:(done)
                (lastOr p (serializeRow (front ++ [lastc]))) lines
                front lastc "" (breaksRow_line _ _ Hfinal)) as [Heq _].
    rewrite Heq. reflexivity.
Qed.






Lemma isNonEmptyRow_long (row : list string) :
  (2 <= length row)%nat -> isNonEmptyRow row = true.
Proof.
  intros H. unfold isNonEmptyRow.
  destruct (Nat.ltb_spec 1 (length row)); [done|lia].
Qed.

(** A parsed table is the empty one, or has a header row that passed the
    filter and data rows reconciled to its width. *)
Lemma parseCsvTable_shape (csvText : string) :
  parseCsvTable csvText = textTable [] []
  \/ exists hs d,
       isNonEmptyRow hs = true
       /\ parseCsvTable csvText = textTable hs (sanitizeRow (length hs) <$> d).
Proof.
  unfold parseCsvTable.
  destruct (List.filter isNonEmptyRow (flush (scan None initialScanner csvText)))
    as [|hs d] eqn:E; [by left|].
  right. exists hs, d. split; [by apply (filter_head _ _ _ _ E)|].
  unfold textTable. f_equal. by rewrite <- list_fmap_compose.
Qed.

Lemma textTable_rectangular (hs : list string) (rs : list (list string)) :
  Forall (fun row => length row = length hs) rs -> rectangular (textTable hs rs).
Proof.
  intros H. unfold rectangular, textTable. simpl. apply Forall_fmap.
  eapply Forall_impl; [exact H|]. intros row Hrow. simpl.
  by rewrite length_fmap.
Qed.

Lemma textTable_allText (hs : list string) (rs : list (list string)) :
  allText (textTable hs rs).
Proof.
  unfold allText, textTable. simpl. apply Forall_fmap, Forall_forall.
  intros row _. simpl. apply Forall_fmap, Forall_forall. intros s _.
  simpl. by exists s.
Qed.

Lemma parseCsvTable_allText (csvText : string) : allText (parseCsvTable csvText).
Proof.
  destruct (parseCsvTable_shape csvText) as [->|(hs & d & _ & ->)];
    apply textTable_allText.
Qed.

Lemma reparse_stable (csvText : string) :
  length (headers (parseCsvTable csvText)) <> 1%nat
  \/ Forall (Forall (fun c => trim (js_String c) <> ""))
            (rows (parseCsvTable csvText)) ->
  parseCsvTable (generateCsv (parseCsvTable csvText)) = parseCsvTable csvText.
Proof.
  destruct (parseCsvTable_shape csvText) as [->|(hs & d & Hhs & ->)];
    [reflexivity|].
  intros Hcond. apply parseCsvTable_generateCsv.
  - apply Forall_fmap, Forall_forall. intros row _. simpl.
    apply sanitizeRow_length.
  - constructor; [done|]. apply Forall_fmap, Forall_forall. intros row Hin.
    simpl. pose proof (sanitizeRow_length (length hs) row) as Hlen.
    destruct (decide (length hs = 1%nat)) as [H1|H1].
    + destruct Hcond as [Hc|Hc]; [done|].
      unfold textTable in Hc. simpl in Hc.
      rewrite !Forall_fmap, Forall_forall in Hc. specialize (Hc row Hin).
      simpl in Hc. rewrite H1 in *.
      destruct (sanitizeRow 1 row) as [|x [|y l]]; try discriminate Hlen.
      apply Forall_inv in Hc. simpl in Hc.
      unfold isNonEmptyRow. simpl. by apply nonEmpty_true.
    + apply isNonEmptyRow_long. rewrite Hlen.
      apply isNonEmptyRow_nonnil in Hhs. destruct hs as [|h [|h' hs]]; simpl in *;
        [done|done|lia].
Qed.

(** X4.  Parsing is stable under writing and reading again: the table
    parsed from any text, serialised and parsed once more, is the same
    table, provided it does not have exactly one column or none of its data
    cells is blank. *)
Theorem parseCsv_reparse_stable (csvText : string) :
  length (headers (parseCsvTable csvText)) <> 1%nat
  \/ Forall (Forall (fun c => trim (js_String c) <> ""))
            (rows (parseCsvTable csvText)) ->
  parseCsv (generateCsv (parseCsvTable csvText)) = parseCsv csvText.
Proof. intros H. unfold parseCsv. f_equal. by apply reparse_stable. Qed.

Lemma parseCsv_reparse_stable_witness :
  parseCsv (generateCsv (parseCsvTable ("a,b" +:+ String LF ("1" +:+ String CR
              (String dquote ("x" +:+ String dquote ",2,3"))))))
  = parseCsv ("a,b" +:+ String LF ("1" +:+ String CR
              (String dquote ("x" +:+ String dquote ",2,3")))).
Proof.
  apply parseCsv_reparse_stable. left. vm_compute. discriminate.
Defined.

End LineEndings.

(** ** More on the join *)

Section JoinMore.

Import Join.

Implicit Types (rowsB : list (list cell)).

Lemma lastMatch_unique (mi : Z) rowsB (r : list cell) :
  NoDup (matchKey mi <$> rowsB) -> r ∈ rowsB ->
  lastMatch mi (matchKey mi r) rowsB = Some r.
Proof.
  induction rowsB as [|x rest IH]; intros Hnd Hin.
  - by apply elem_of_nil in Hin.
  - rewrite fmap_cons in Hnd. apply NoDup_cons in Hnd as [Hx Hnd]. simpl.
    apply elem_of_cons in Hin as [->|Hin].
    + destruct (lastMatch mi (matchKey mi x) rest) as [r'|] eqn:E.
      * apply lastMatch_Some in E as [Hin' Hk]. destruct Hx.
        rewrite <- Hk. by apply (list_elem_of_fmap_2 (matchKey mi)).
      * unfold matchKey. by rewrite decide_True.
    + by rewrite IH.
Qed.

Lemma buildLookupMap_perm (mi : Z) rowsB (rowsB' : list (list cell)) :
  NoDup (matchKey mi <$> rowsB) -> rowsB ≡ₚ rowsB' ->
  buildLookupMap mi rowsB = buildLookupMap mi rowsB'.
Proof.
  intros Hnd Hperm. apply map_eq. intros k. rewrite !buildLookupMap_lookup.
  destruct (lastMatch mi k rowsB) as [r|] eqn:E.
  - apply lastMatch_Some in E as [Hin <-]. symmetry.
    apply (lastMatch_unique mi rowsB' r).
    + by rewrite <- Hperm.
    + by rewrite <- Hperm.
  - destruct (lastMatch mi k rowsB') as [r|] eqn:E'; [|done].
    apply lastMatch_Some in E' as [Hin Hk]. rewrite <- Hperm in Hin.
    by destruct (lastMatch_None _ _ _ E _ Hin).
Qed.

Lemma indexOf_absent (arr : list string) (h : string) :
  h ∉ arr -> indexOf arr h = (-1)%Z.
Proof. intros H. unfold indexOf. by apply indexOf_from_absent. Qed.

(** X5.  When the match cells of the right table have pairwise distinct
    texts, looking a table up in itself by that column gives every row its
    own return cell: what the index stores under a row's key is that row. *)
Theorem vlookup_self_join (t : TableData) (c rc : string) :
  NoDup (matchKey (indexOf (headers t) c) <$> rows t) ->
  rows (vlookup t t c c rc)
  = (fun row => row ++ [js_get row (indexOf (headers t) rc)]) <$> rows t.
Proof.
  intros Hnd. unfold vlookup, vlookupAt. simpl.
  apply Forall_fmap_ext_1, Forall_forall. intros row Hin.
  unfold joinRow. rewrite buildLookupMap_lookup.
  change (js_String (js_get row (indexOf (headers t) c)))
    with (matchKey (indexOf (headers t) c) row).
  by rewrite (lastMatch_unique _ _ _ Hnd Hin).
Qed.

Lemma vlookup_self_join_witness :
  rows (vlookup Sample.right Sample.right "ID" "ID" "Score")
  = [[Str "2"; Str "90"; Str "90"]; [Str "1"; Str "80"; Str "80"]].
Proof.
  rewrite (vlookup_self_join Sample.right "ID" "Score"); [reflexivity|].
  apply (bool_decide_unpack _). vm_compute. exact I.
Defined.

(** X6.  When the match cells of the right table have pairwise distinct
    texts, the join does not depend on the order of the right rows. *)
Theorem vlookup_right_order_irrelevant (tA : TableData) (hsB : list string)
    (rowsB rowsB' : list (list cell)) (lc mc rc : string) :
  NoDup (matchKey (indexOf hsB mc) <$> rowsB) ->
  rowsB ≡ₚ rowsB' ->
  vlookup tA {| headers := hsB; rows := rowsB |} lc mc rc
  = vlookup tA {| headers := hsB; rows := rowsB' |} lc mc rc.
Proof.
  intros Hnd Hperm. unfold vlookup, vlookupAt. simpl.
  by rewrite (buildLookupMap_perm _ _ _ Hnd Hperm).
Qed.

Lemma vlookup_right_order_irrelevant_witness :
  vlookup Sample.left
    {| headers := ["ID"; "Score"];
       rows := [[Str "2"; Str "90"]; [Str "1"; Str "80"]] |} "ID" "ID" "Score"
  = vlookup Sample.left
      {| headers := ["ID"; "Score"];
         rows := [[Str "1"; Str "80"]; [Str "2"; Str "90"]] |} "ID" "ID" "Score".
Proof.
  apply vlookup_right_order_irrelevant.
  - apply (bool_decide_unpack _). vm_compute. exact I.
  - apply Permutation_swap.
Defined.

(** X7.  A lookup column that the left table does not have is not an
    error: every left row is then looked up under the text undefined, so all
    output rows receive one and the same cell, and that cell is N/A unless a
    right row has a match cell with the text undefined. *)
Theorem vlookup_absent_lookup_column (tA tB : TableData) (lc mc rc : string) :
  lc ∉ headers tA ->
  exists v,
    rows (vlookup tA tB lc mc rc) = (fun row => row ++ [v]) <$> rows tA
    /\ ((forall r, r ∈ rows tB ->
           matchKey (indexOf (headers tB) mc) r <> "undefined") ->
        v = Str "N/A").
Proof.
  intros Habs. unfold vlookup, vlookupAt. simpl.
  rewrite (indexOf_absent (headers tA) lc) by done.
  exists (match lastMatch (indexOf (headers tB) mc) "undefined" (rows tB) with
          | Some r => js_get r (indexOf (headers tB) rc)
          | None => Str "N/A"
          end).
  split.
  - apply list_fmap_ext. intros i row _. unfold joinRow.
    by rewrite js_get_minus_one, buildLookupMap_lookup.
  - intros Hno.
    destruct (lastMatch (indexOf (headers tB) mc) "undefined" (rows tB))
      as [r|] eqn:E; [|done].
    apply lastMatch_Some in E as [Hin Hk]. by destruct (Hno r Hin).
Qed.

Lemma vlookup_absent_lookup_column_witness :
  exists v,
    rows (vlookup Sample.left Sample.right "Code" "ID" "Score")
    = (fun row => row ++ [v]) <$> rows Sample.left.
Proof.
  destruct (vlookup_absent_lookup_column Sample.left Sample.right
              "Code" "ID" "Score") as (v & Hv & _).
  - intros H. repeat (apply elem_of_cons in H as [H|H]; [discriminate H|]).
    by apply elem_of_nil in H.
  - by exists v.
Defined.

End JoinMore.

(** ** More on the spreadsheet normaliser *)

Section SheetMore.

Lemma cellText_fieldText (c : cell) : cellText c = Str (fieldText c).
Proof. destruct c as [| |s|[|]]; reflexivity. Qed.

Lemma normalizeSheet_filter (sheetRows : list (list cell)) :
  normalizeSheet sheetRows
  = match List.filter (existsb hasContent) sheetRows with
    | [] => {| headers := []; rows := [] |}
    | headerRow :: dataRows =>
        {| headers := headerText <$> headerRow;
           rows := sanitizeSheetRow (length (headerText <$> headerRow))
                   <$> dataRows |}
    end.
Proof. by destruct sheetRows. Qed.

Lemma sanitizeSheetRow_text (width : nat) (row : list cell) :
  sanitizeSheetRow width row
  = Str <$> (take width (fieldText <$> row)
             ++ replicate (width - length row) "").
Proof.
  rewrite sanitizeSheetRow_spec, fmap_app, fmap_take, fmap_replicate.
  rewrite <- list_fmap_compose. do 2 f_equal. apply list_fmap_ext.
  intros i c _. apply cellText_fieldText.
Qed.

Lemma normalizeSheet_text (sheetRows : list (list cell))
    (headerRow : list cell) (dataRows : list (list cell)) :
  List.filter (existsb hasContent) sheetRows = headerRow :: dataRows ->
  normalizeSheet sheetRows
  = textTable (headerText <$> headerRow)
      ((fun row : list cell =>
          take (length headerRow) (fieldText <$> row)
          ++ replicate (length headerRow - length row) "") <$> dataRows).
Proof.
  intros H. rewrite normalizeSheet_filter, H. unfold textTable. f_equal.
  rewrite <- list_fmap_compose. apply list_fmap_ext. intros i row _. simpl.
  by rewrite sanitizeSheetRow_text, length_fmap.
Qed.

Lemma normalizeSheet_allText (sheetRows : list (list cell)) :
  allText (normalizeSheet sheetRows).
Proof.
  destruct (List.filter (existsb hasContent) sheetRows) as [|h d] eqn:E.
  - rewrite normalizeSheet_filter, E. constructor.
  - rewrite (normalizeSheet_text _ _ _ E). apply textTable_allText.
Qed.



(** X9.  Rows without content, that is rows all of whose cells are [null],
    [undefined] or blank text, do not influence the result of the
    normaliser, wherever they stand in the sheet. *)
Theorem normalizeSheet_ignores_blank_rows (before after : list (list cell))
    (blank : list cell) :
  existsb hasContent blank = false ->
  normalizeSheet (before ++ blank :: after) = normalizeSheet (before ++ after).
Proof.
  intros H. rewrite !normalizeSheet_filter, !List.filter_app. simpl.
  by rewrite H.
Qed.

Lemma normalizeSheet_ignores_blank_rows_witness :
  normalizeSheet [[Str "h"]; [Str " "; Null; Undefined]; [Str "1"]]
  = normalizeSheet [[Str "h"]; [Str "1"]].
Proof.
  apply (normalizeSheet_ignores_blank_rows [[Str "h"]] [[Str "1"]]
           [Str " "; Null; Undefined]).
  reflexivity.
Defined.

End SheetMore.

(** ** Loading tables *)

Section Loading.

Import Join App.

Variable xlsxSheets : list ascii -> option (list (list (list cell))).

Lemma length_zero_false {A} (l : list A) : (length l =? 0)%nat = false -> l <> [].
Proof. by intros H ->. Qed.

Lemma length_zero_true {A} (l : list A) : (length l =? 0)%nat = true -> l = [].
Proof. by destruct l. Qed.

Lemma parseFile_resolved (file : File) (t : TableData) :
  snd (parseFile xlsxSheets file) = Resolved t -> rectangular t /\ allText t.
Proof.
  unfold parseFile, parseExcel, parseCsv.
  destruct (endsWith (toLowerCase (fileName file)) ".csv"); simpl.
  { intros [= <-]. split;
      [apply parseCsvTable_rectangular|apply parseCsvTable_allText]. }
  destruct (endsWith (toLowerCase (fileName file)) ".xlsx"
            || endsWith (toLowerCase (fileName file)) ".xls"); simpl; [|done].
  destruct (xlsxSheets (fileBytes file)) as [[|sheetRows sheets]|];
    intros [= <-].
  - split; constructor.
  - split; [apply normalizeSheet_rectangular|apply normalizeSheet_allText].
Qed.

(** X10.  [handlePastedData] either stores a table or reports an error,
    never both and never neither.  A stored table is the parsed text under
    the name Pasted Data, and it has a header, a data row, rows as wide as
    the header row and text in every cell; the error is reported exactly when
    the parsed table lacks headers or data rows. *)
Theorem handlePastedData_outcome (text : string) :
  (exists tbl,
     handlePastedData text = (Some tbl, None)
     /\ name tbl = "Pasted Data" /\ data tbl = parseCsvTable text
     /\ loadedTable (data tbl))
  \/ (handlePastedData text = (None, Some pastedEmptyMessage)
      /\ (headers (parseCsvTable text) = [] \/ rows (parseCsvTable text) = [])).
Proof.
  unfold handlePastedData, parseCsv.
  destruct (length (headers (parseCsvTable text)) =? 0)%nat eqn:Eh; simpl.
  { right. split; [done|]. left. by apply length_zero_true. }
  destruct (length (rows (parseCsvTable text)) =? 0)%nat eqn:Er; simpl.
  { right. split; [done|]. right. by apply length_zero_true. }
  left. eexists. split; [done|]. simpl. split; [done|]. split; [done|].
  split; [by apply length_zero_false|]. split; [by apply length_zero_false|].
  split; [apply parseCsvTable_rectangular|apply parseCsvTable_allText].
Qed.

(** X11.  A text that holds a header row and nothing else but line breaks
    is refused by [handlePastedData] as empty or invalid: a table needs at
    least one data row to be loaded. *)
Theorem handlePastedData_header_only (hs : list string) (head tail : string) :
  allNewline head = true -> allNewline tail = true ->
  isNonEmptyRow hs = true ->
  handlePastedData (head +:+ serializeRow hs +:+ tail)
  = (None, Some pastedEmptyMessage).
Proof.
  intros Hhead Htail Hhs. unfold handlePastedData, parseCsv.
  change (serializeRow hs)
    with (join (String LF "") (serializeRow <$> (hs :: []))).
  rewrite (parseCsvTable_lines hs [] head (String LF "") tail) by
    (try done; by repeat constructor).
  simpl. by rewrite orb_true_r.
Qed.

Lemma handlePastedData_header_only_witness :
  handlePastedData ("id,name" +:+ String CR (String LF ""))
  = (None, Some pastedEmptyMessage).
Proof.
  apply (handlePastedData_header_only ["id"; "name"] ""
           (String CR (String LF ""))); reflexivity.
Defined.

(** X12.  [handleDataParsed] performs the reads of [parseFile] and then
    either stores the parsed table under the file's name, with the error
    cleared, or empties the slot and sets an error.  A stored table has a
    header, a data row, rows as wide as the header row and text in every
    cell.  The other table, the merged table and the three selected columns
    are left as they were, and the loading flag ends up off.  This is so
    for both table slots. *)
Theorem handleDataParsed_outcome (file : File) (st : AppState) :
  (fst (handleDataParsed xlsxSheets file setTableA st)
   = fst (parseFile xlsxSheets file)
   /\ ((exists t,
          snd (parseFile xlsxSheets file) = Resolved t /\ loadedTable t
          /\ tableA (snd (handleDataParsed xlsxSheets file setTableA st))
             = Some {| name := fileName file; data := t |}
          /\ error (snd (handleDataParsed xlsxSheets file setTableA st)) = None)
       \/ (tableA (snd (handleDataParsed xlsxSheets file setTableA st)) = None
           /\ error (snd (handleDataParsed xlsxSheets file setTableA st))
              <> None))
   /\ tableB (snd (handleDataParsed xlsxSheets file setTableA st)) = tableB st
   /\ mergedData (snd (handleDataParsed xlsxSheets file setTableA st))
      = mergedData st
   /\ lookupColumn (snd (handleDataParsed xlsxSheets file setTableA st))
      = lookupColumn st
   /\ matchColumn (snd (handleDataParsed xlsxSheets file setTableA st))
      = matchColumn st
   /\ returnColumn (snd (handleDataParsed xlsxSheets file setTableA st))
      = returnColumn st
   /\ isLoading (snd (handleDataParsed xlsxSheets file setTableA st)) = false)
  /\ (fst (handleDataParsed xlsxSheets file setTableB st)
      = fst (parseFile xlsxSheets file)
      /\ ((exists t,
             snd (parseFile xlsxSheets file) = Resolved t /\ loadedTable t
             /\ tableB (snd (handleDataParsed xlsxSheets file setTableB st))
                = Some {| name := fileName file; data := t |}
             /\ error (snd (handleDataParsed xlsxSheets file setTableB st))
                = None)
          \/ (tableB (snd (handleDataParsed xlsxSheets file setTableB st))
              = None
              /\ error (snd (handleDataParsed xlsxSheets file setTableB st))
                 <> None))
      /\ tableA (snd (handleDataParsed xlsxSheets file setTableB st))
         = tableA st
      /\ mergedData (snd (handleDataParsed xlsxSheets file setTableB st))
         = mergedData st
      /\ lookupColumn (snd (handleDataParsed xlsxSheets file setTableB st))
         = lookupColumn st
      /\ matchColumn (snd (handleDataParsed xlsxSheets file setTableB st))
         = matchColumn st
      /\ returnColumn (snd (handleDataParsed xlsxSheets file setTableB st))
         = returnColumn st
      /\ isLoading (snd (handleDataParsed xlsxSheets file setTableB st))
         = false).
Proof.
  pose proof (parseFile_resolved file) as Hres.
  unfold handleDataParsed.
  destruct (parseFile xlsxSheets file) as [reads [t|message]]; simpl in *.
  - destruct (Hres t eq_refl) as [Hrect Htext].
    destruct (length (headers t) =? 0)%nat eqn:Eh; simpl.
    { split; (split; [done|]; split; [by right|done]). }
    destruct (length (rows t) =? 0)%nat eqn:Er; simpl.
    { split; (split; [done|]; split; [by right|done]). }
    assert (Hloaded : loadedTable t).
    { split; [by apply length_zero_false|].
      split; [by apply length_zero_false|done]. }
    split; (split; [done|]; split; [left; by exists t|done]).
  - split; (split; [done|]; split; [by right|done]).
Qed.

End Loading.

Lemma handleDataParsed_outcome_witness :
  snd (App.handleDataParsed (fun _ => None)
         {| fileName := "t.CSV";
            fileText := "id,name" +:+ String LF "1,Ann"; fileBytes := [] |}
         App.setTableA Sample.staleState)
  = App.setTableA
      (Some {| name := "t.CSV"; data := textTable ["id"; "name"] [["1"; "Ann"]] |})
      Sample.staleState
  /\ fst (App.handleDataParsed (fun _ => None)
            {| fileName := "t.txt"; fileText := "id,name"; fileBytes := [] |}
            App.setTableB Sample.staleState) = [].
Proof.
  split.
  - vm_compute. reflexivity.
  - destruct (handleDataParsed_outcome (fun _ => None)
                {| fileName := "t.txt"; fileText := "id,name"; fileBytes := [] |}
                Sample.staleState) as (_ & H & _).
    rewrite H. reflexivity.
Defined.

(** ** From the join to the downloaded file *)

Section Download.

Import Join App.

Lemma text_row_id (row : list cell) :
  Forall (fun c => exists s, c = Str s) row ->
  Str <$> (fieldText <$> row) = row.
Proof.
  induction 1 as [|c row [s ->] _ IH]; [done|].
  rewrite !fmap_cons, IH. done.
Qed.

Lemma allText_textTable (t : TableData) :
  allText t ->
  t = textTable (headers t)
        ((fun row : list cell => fieldText <$> row) <$> rows t).
Proof.
  intros H. destruct t as [hs rs]. unfold textTable, allText in *. simpl in *.
  f_equal. rewrite <- list_fmap_compose. rewrite <- (list_fmap_id rs) at 1.
  apply Forall_fmap_ext_1. eapply Forall_impl; [exact H|].
  intros row Hrow. simpl. by rewrite text_row_id.
Qed.

Lemma js_get_text (row : list cell) (i : nat) :
  Forall (fun c => exists s, c = Str s) row -> (i < length row)%nat ->
  exists s, js_get row (Z.of_nat i) = Str s.
Proof.
  intros Hrow Hi. rewrite js_get_nat. unfold cellAt.
  destruct (lookup_lt_is_Some_2 row i Hi) as [c Hc]. rewrite Hc. simpl.
  rewrite Forall_forall in Hrow. apply Hrow.
  apply list_elem_of_lookup. by exists i.
Qed.

(** With a return column that the right table has, the join of two tables
    of text is a table of text. *)
Lemma vlookup_allText (tA tB : TableData) (lc mc rc : string) :
  allText tA -> allText tB -> rectangular tB -> rc ∈ headers tB ->
  allText (vlookup tA tB lc mc rc).
Proof.
  intros HA HB Hrect Hrc. destruct (firstAt_exists _ _ Hrc) as [ri Hri].
  unfold allText, vlookup, vlookupAt. simpl.
  apply Forall_fmap. eapply Forall_impl; [exact HA|].
  intros rowA HrowA. simpl. unfold joinRow. apply Forall_app. split; [done|].
  apply Forall_singleton. rewrite buildLookupMap_lookup.
  destruct (lastMatch _ _ (rows tB)) as [rowB|] eqn:E; [|by eexists].
  apply lastMatch_Some in E as [Hin _].
  rewrite (indexOf_firstAt _ _ _ Hri). apply js_get_text.
  - unfold allText in HB. rewrite Forall_forall in HB. by apply HB.
  - unfold rectangular in Hrect. rewrite Forall_forall in Hrect.
    rewrite (Hrect _ Hin). destruct Hri as [Hri _].
    by apply lookup_lt_Some in Hri.
Qed.

Lemma isVlookupReady_true (st : AppState) :
  isVlookupReady st = true <->
  is_Some (tableA st) /\ is_Some (tableB st) /\ lookupColumn st <> ""
  /\ matchColumn st <> "" /\ returnColumn st <> "".
Proof.
  unfold isVlookupReady. rewrite !andb_true_iff, !bool_decide_eq_true,
    !nonEmpty_true. tauto.
Qed.

Lemma handlePerformVlookup_ready (st : AppState) (a b : Table) :
  tableA st = Some a -> tableB st = Some b -> isVlookupReady st = true ->
  mergedData (handlePerformVlookup st)
  = Some (vlookup (data a) (data b) (lookupColumn st) (matchColumn st)
                  (returnColumn st))
  /\ error (handlePerformVlookup st) = None.
Proof.
  intros Ha Hb Hready.
  apply isVlookupReady_true in Hready as (_ & _ & Hl & Hm & Hr).
  apply nonEmpty_true in Hl, Hm, Hr.
  unfold handlePerformVlookup. by rewrite Ha, Hb, Hl, Hm, Hr.
Qed.

(** X13.  From loading to download: when both loaded tables have a header,
    rows as wide as the header row and text in every cell, as the loading
    handlers ensure, and the return column is a header of the right table,
    the join succeeds, [handleDownload] offers the serialised merged table
    as merged_data.csv, and parsing that file gives back the merged table
    exactly. *)
Theorem merged_download_reparses (st : AppState) (a b : Table) :
  tableA st = Some a -> tableB st = Some b ->
  loadedTable (data a) -> loadedTable (data b) ->
  isVlookupReady st = true ->
  returnColumn st ∈ headers (data b) ->
  exists merged,
    mergedData (handlePerformVlookup st) = Some merged
    /\ handleDownload (handlePerformVlookup st)
       = Some {| downloadName := "merged_data.csv";
                 downloadType := "text/csv;charset=utf-8;";
                 downloadContent := generateCsv merged |}
    /\ parseCsv (generateCsv merged) = Resolved merged.
Proof.
  intros Ha Hb (HhA & _ & HrectA & HtextA) (_ & _ & HrectB & HtextB) Hready Hrc.
  destruct (handlePerformVlookup_ready st a b Ha Hb Hready) as [Hm _].
  eexists. split; [exact Hm|]. split; [unfold handleDownload; by rewrite Hm|].
  set (merged := vlookup (data a) (data b) (lookupColumn st) (matchColumn st)
                         (returnColumn st)).
  assert (Htext : allText merged) by (by apply vlookup_allText).
  assert (Hrect : rectangular merged) by (by apply vlookup_rectangular).
  assert (Hwide : (2 <= length (headers merged))%nat).
  { unfold merged, vlookup, vlookupAt. simpl. rewrite length_app. simpl.
    destruct (headers (data a)); [done|simpl; lia]. }
  rewrite (allText_textTable merged Htext). unfold parseCsv. f_equal.
  apply parseCsvTable_generateCsv.
  - apply Forall_fmap. eapply Forall_impl; [exact Hrect|].
    intros row Hrow. simpl. by rewrite length_fmap.
  - constructor; [by apply isNonEmptyRow_long|].
    apply Forall_fmap. eapply Forall_impl; [exact Hrect|].
    intros row Hrow. simpl. apply isNonEmptyRow_long.
    by rewrite length_fmap, Hrow.
Qed.

Lemma merged_download_reparses_witness :
  exists merged,
    mergedData (handlePerformVlookup
                  (setReturnColumn "Score" Sample.staleState)) = Some merged
    /\ parseCsv (generateCsv merged) = Resolved merged.
Proof.
  destruct (merged_download_reparses
              (setReturnColumn "Score" Sample.staleState)
              {| name := "a.csv"; data := Sample.left |}
              {| name := "b.csv"; data := Sample.right |})
    as (merged & H1 & _ & H2).
  - reflexivity.
  - reflexivity.
  - split; [done|]. split; [done|]. split; repeat constructor; by eexists.
  - split; [done|]. split; [done|]. split; repeat constructor; by eexists.
  - reflexivity.
  - apply elem_of_cons. right. apply elem_of_cons. by left.
  - by exists merged.
Defined.

(** X14.  The button state and the handler agree: [isVlookupReady] holds
    exactly when [handlePerformVlookup] accepts the request and stores a
    merged table; when it does not hold, the handler sets the error message
    and changes nothing else. *)
Theorem isVlookupReady_guard (st : AppState) :
  (isVlookupReady st = true <-> error (handlePerformVlookup st) = None)
  /\ (isVlookupReady st = true -> is_Some (mergedData (handlePerformVlookup st)))
  /\ (isVlookupReady st = false ->
      handlePerformVlookup st = setError (Some selectColumnsMessage) st).
Proof.
  destruct st as [[a|] [b|] m lc mc rc l e];
    unfold isVlookupReady, handlePerformVlookup, setError; simpl;
    try (split; [split; done|split; done]).
  destruct (nonEmpty lc), (nonEmpty mc), (nonEmpty rc); simpl;
    (split; [split; done|split; [done || by eexists|done]]).
Qed.

Lemma isVlookupReady_guard_witness :
  handlePerformVlookup (setTableB None Sample.staleState)
  = setError (Some selectColumnsMessage) (setTableB None Sample.staleState).
Proof.
  destruct (isVlookupReady_guard (setTableB None Sample.staleState))
    as (_ & _ & H).
  apply H. reflexivity.
Defined.

(** X15.  Clearing a table empties its slot, discards the merged table and
    forgets the columns chosen from that table, and nothing else; the join
    is then not ready, and asking for it only sets the error message. *)
Theorem resetTable_disables_join (st : AppState) :
  (tableA (resetTable setTableA true st) = None
   /\ lookupColumn (resetTable setTableA true st) = ""
   /\ tableB (resetTable setTableA true st) = tableB st
   /\ matchColumn (resetTable setTableA true st) = matchColumn st
   /\ returnColumn (resetTable setTableA true st) = returnColumn st
   /\ isVlookupReady (resetTable setTableA true st) = false
   /\ mergedData (handlePerformVlookup (resetTable setTableA true st)) = None
   /\ error (handlePerformVlookup (resetTable setTableA true st))
      = Some selectColumnsMessage)
  /\ (tableB (resetTable setTableB false st) = None
      /\ matchColumn (resetTable setTableB false st) = ""
      /\ returnColumn (resetTable setTableB false st) = ""
      /\ tableA (resetTable setTableB false st) = tableA st
      /\ lookupColumn (resetTable setTableB false st) = lookupColumn st
      /\ isVlookupReady (resetTable setTableB false st) = false
      /\ mergedData (handlePerformVlookup (resetTable setTableB false st))
         = None
      /\ error (handlePerformVlookup (resetTable setTableB false st))
         = Some selectColumnsMessage).
Proof.
  destruct st as [a b m lc mc rc l e].
  unfold resetTable, isVlookupReady, handlePerformVlookup; simpl.
  split.
  - repeat split; by destruct b.
  - rewrite !andb_false_r. repeat split; by destruct a.
Qed.

End Download.

(** ** Dropping files and choosing columns *)

Section Choosing.

Import Join App DataSource.

(** X16.  The extension test of [handleDrop] and the one of [parseFile]
    agree: a dropped file is passed on exactly when [parseFile] does not
    reject it as an unsupported format, so that error cannot arise from a
    drop; without a file nothing is passed on. *)
Theorem handleDrop_agrees_with_parseFile {R : Type}
    (xlsxSheets : list ascii -> option (list (list (list cell))))
    (onDataParsed : File -> R) (file : File) :
  ((handleDrop onDataParsed (Some file) = Some (onDataParsed file)
    /\ parseFile xlsxSheets file <> ([], Rejected unsupportedMessage))
   \/ (handleDrop onDataParsed (Some file) = None
       /\ parseFile xlsxSheets file = ([], Rejected unsupportedMessage)))
  /\ handleDrop onDataParsed None = None.
Proof.
  split; [|done]. unfold handleDrop, parseFile, parseExcel.
  destruct (endsWith (toLowerCase (fileName file)) ".csv"); simpl;
    [by left|].
  destruct (endsWith (toLowerCase (fileName file)) ".xlsx"
            || endsWith (toLowerCase (fileName file)) ".xls"); simpl;
    [by left|by right].
Qed.

Lemma handleDrop_agrees_with_parseFile_witness :
  handleDrop (fun f => fileName f)
    (Some {| fileName := "notes.txt"; fileText := ""; fileBytes := [] |})
  = None.
Proof.
  destruct (handleDrop_agrees_with_parseFile (fun _ => None)
              (fun f => fileName f)
              {| fileName := "notes.txt"; fileText := ""; fileBytes := [] |})
    as [[[_ H]|[H _]] _].
  - by destruct H.
  - exact H.
Defined.

(** X19.  The test of [handlePasteAndParse] loses no loadable text: text
    that it does not pass on is text that [handlePastedData] would have
    refused as empty or invalid, and any other text is passed on
    unchanged. *)
Theorem handlePasteAndParse_guard (pastedText : string) :
  (handlePasteAndParse handlePastedData pastedText = None
   /\ handlePastedData pastedText = (None, Some pastedEmptyMessage))
  \/ handlePasteAndParse handlePastedData pastedText
     = Some (handlePastedData pastedText).
Proof.
  unfold handlePasteAndParse.
  destruct (nonEmpty (trim pastedText)) eqn:E; [by right|]. left.
  split; [done|]. unfold handlePastedData, parseCsv.
  rewrite parseCsvTable_allSpace; [done|].
  apply trim_nil_iff. destruct (decide (trim pastedText = "")) as [H|H]; [done|].
  apply nonEmpty_true in H. congruence.
Qed.

Lemma find_first {A} (f : A -> bool) (l : list A) (x : A) :
  List.find f l = Some x ->
  f x = true
  /\ exists before after,
       l = before ++ x :: after /\ Forall (fun y => f y = false) before.
Proof.
  induction l as [|y l IH]; [done|]. simpl.
  destruct (f y) eqn:Ey.
  - intros [= <-]. split; [done|]. by exists [], l.
  - intros H. destruct (IH H) as (Hx & before & after & -> & Hb).
    split; [done|]. exists (y :: before), after. split; [done|].
    by constructor.
Qed.

Lemma existsb_sameCase (h : string) (hs : list string) :
  existsb (fun hb => bool_decide (toLowerCase hb = toLowerCase h)) hs = false ->
  forall hb, hb ∈ hs -> toLowerCase hb <> toLowerCase h.
Proof.
  intros H hb Hin Heq.
  assert (existsb (fun hb => bool_decide (toLowerCase hb = toLowerCase h)) hs
          = true); [|congruence].
  apply existsb_exists. exists hb. split; [by apply list_elem_of_In|].
  by apply bool_decide_eq_true.
Qed.

Lemma toLowerCase_nonEmpty (s t : string) :
  toLowerCase s = toLowerCase t -> t <> "" -> s <> "".
Proof. intros H Ht ->. by destruct t. Qed.

(** The effect, with the outcome of its two searches made explicit. *)
Lemma autoSelectColumns_cases (st : AppState) (a b : Table) :
  tableA st = Some a -> tableB st = Some b ->
  autoSelectColumns st = st
  \/ exists ch hb beforeA afterA beforeB afterB,
       autoSelectColumns st
       = setMatchColumn (orElse (matchColumn st) hb)
           (setLookupColumn (orElse (lookupColumn st) ch) st)
       /\ ch <> "" /\ hb <> "" /\ toLowerCase hb = toLowerCase ch
       /\ headers (data a) = beforeA ++ ch :: afterA
       /\ headers (data b) = beforeB ++ hb :: afterB
       /\ Forall (fun h => forall h', h' ∈ headers (data b) ->
                             toLowerCase h' <> toLowerCase h) beforeA
       /\ Forall (fun h => toLowerCase h <> toLowerCase ch) beforeB.
Proof.
  intros Ha Hb. unfold autoSelectColumns. rewrite Ha, Hb.
  destruct (List.find _ (headers (data a))) as [ch|] eqn:E1; [|by left].
  destruct (nonEmpty ch) eqn:Ech; [|by left].
  destruct (List.find _ (headers (data b))) as [hb|] eqn:E2; [|by left].
  destruct (nonEmpty hb) eqn:Ehb; [|by left].
  right. apply find_first in E1 as (_ & beforeA & afterA & HA & HbA).
  apply find_first in E2 as (Hsame & beforeB & afterB & HB & HbB).
  apply bool_decide_eq_true in Hsame.
  exists ch, hb, beforeA, afterA, beforeB, afterB.
  split; [done|]. split; [by apply nonEmpty_true|].
  split; [by apply nonEmpty_true|]. split; [done|]. split; [done|].
  split; [done|]. split.
  - eapply Forall_impl; [exact HbA|]. intros h Hh. by apply existsb_sameCase.
  - eapply Forall_impl; [exact HbB|]. intros h Hh.
    by apply bool_decide_eq_false in Hh.
Qed.

(** X17.  When no column has been chosen yet, the columns that the effect
    selects are headers of their tables, are not empty and are equal up to
    letter case; the lookup column is the first header of the left table
    that some header of the right table equals up to case, and the match
    column is the first header of the right table equal to it up to case.
    Otherwise the effect changes nothing. *)
Theorem autoSelectColumns_selects_common_header (st : AppState) (a b : Table) :
  tableA st = Some a -> tableB st = Some b ->
  lookupColumn st = "" -> matchColumn st = "" ->
  autoSelectColumns st = st
  \/ (lookupColumn (autoSelectColumns st) <> ""
      /\ matchColumn (autoSelectColumns st) <> ""
      /\ toLowerCase (matchColumn (autoSelectColumns st))
         = toLowerCase (lookupColumn (autoSelectColumns st))
      /\ exists beforeA afterA beforeB afterB,
           headers (data a)
           = beforeA ++ lookupColumn (autoSelectColumns st) :: afterA
           /\ headers (data b)
              = beforeB ++ matchColumn (autoSelectColumns st) :: afterB
           /\ Forall (fun h => forall h', h' ∈ headers (data b) ->
                                 toLowerCase h' <> toLowerCase h) beforeA
           /\ Forall (fun h => toLowerCase h
                               <> toLowerCase
                                    (lookupColumn (autoSelectColumns st)))
                     beforeB).
Proof.
  intros Ha Hb Hl Hm.
  destruct (autoSelectColumns_cases st a b Ha Hb)
    as [->|(ch & hb & bA & aA & bB & aB & -> & Hch & Hhb & Hsame & HA & HB
            & HfA & HfB)]; [by left|].
  right. simpl. rewrite Hl, Hm. unfold orElse. simpl.
  split; [done|]. split; [done|]. split; [done|].
  by exists bA, aA, bB, aB.
Qed.

Lemma autoSelectColumns_selects_common_header_witness :
  lookupColumn
    (autoSelectColumns
       (setMatchColumn ""
          (setLookupColumn ""
             (setTableB
                (Some {| name := "b.csv";
                         data := {| headers := ["Score"; "id"];
                                    rows := [[Str "90"; Str "2"]] |} |})
                Sample.staleState)))) = "ID"
  /\ matchColumn
       (autoSelectColumns
          (setMatchColumn ""
             (setLookupColumn ""
                (setTableB
                   (Some {| name := "b.csv";
                            data := {| headers := ["Score"; "id"];
                                       rows := [[Str "90"; Str "2"]] |} |})
                   Sample.staleState)))) = "id".
Proof.
  destruct (autoSelectColumns_selects_common_header
              (setMatchColumn ""
                 (setLookupColumn ""
                    (setTableB
                       (Some {| name := "b.csv";
                                data := {| headers := ["Score"; "id"];
                                           rows := [[Str "90"; Str "2"]] |} |})
                       Sample.staleState)))
              {| name := "a.csv"; data := Sample.left |}
              {| name := "b.csv";
                 data := {| headers := ["Score"; "id"];
                            rows := [[Str "90"; Str "2"]] |} |}
              eq_refl eq_refl eq_refl eq_refl) as [H|_].
  - vm_compute in H. discriminate H.
  - vm_compute. split; reflexivity.
Defined.

Lemma autoSelectColumns_no_table (st : AppState) :
  tableA st = None \/ tableB st = None -> autoSelectColumns st = st.
Proof.
  unfold autoSelectColumns. intros [H|H]; rewrite H; [done|].
  by destruct (tableA st).
Qed.

(** X18.  The effect never overrides a choice: a lookup or match column
    that is already chosen is kept, and the tables, the return column, the
    merged table, the loading flag and the error are never touched.  Running
    the effect a second time changes nothing more. *)
Theorem autoSelectColumns_keeps_choices (st : AppState) :
  (lookupColumn st <> "" ->
   lookupColumn (autoSelectColumns st) = lookupColumn st)
  /\ (matchColumn st <> "" ->
      matchColumn (autoSelectColumns st) = matchColumn st)
  /\ tableA (autoSelectColumns st) = tableA st
  /\ tableB (autoSelectColumns st) = tableB st
  /\ returnColumn (autoSelectColumns st) = returnColumn st
  /\ mergedData (autoSelectColumns st) = mergedData st
  /\ isLoading (autoSelectColumns st) = isLoading st
  /\ error (autoSelectColumns st) = error st
  /\ autoSelectColumns (autoSelectColumns st) = autoSelectColumns st.
Proof.
  destruct (tableA st) as [a|] eqn:Ha;
    [|rewrite !(autoSelectColumns_no_table st) by auto; by repeat split].
  destruct (tableB st) as [b|] eqn:Hb;
    [|rewrite !(autoSelectColumns_no_table st) by auto; by repeat split].
  destruct (autoSelectColumns_cases st a b Ha Hb)
    as [E|(ch & hb & bA & aA & bB & aB & E & Hch & Hhb & _)].
  - rewrite !E. by repeat split.
  - assert (Hl : nonEmpty (orElse (lookupColumn st) ch) = true).
    { unfold orElse. destruct (nonEmpty (lookupColumn st)) eqn:El; [done|].
      by apply nonEmpty_true. }
    assert (Hm : nonEmpty (orElse (matchColumn st) hb) = true).
    { unfold orElse. destruct (nonEmpty (matchColumn st)) eqn:Em; [done|].
      by apply nonEmpty_true. }
    set (st' := setMatchColumn (orElse (matchColumn st) hb)
                  (setLookupColumn (orElse (lookupColumn st) ch) st)) in *.
    assert (Hidem : autoSelectColumns st' = st').
    { destruct (autoSelectColumns_cases st' a b Ha Hb)
        as [E'|(ch' & hb' & _ & _ & _ & _ & E' & _)]; [done|].
      rewrite E'. unfold st', setMatchColumn, setLookupColumn, orElse. simpl.
      fold (orElse (lookupColumn st) ch). fold (orElse (matchColumn st) hb).
      by rewrite Hl, Hm. }
    rewrite !E, Hidem. unfold st'. simpl.
    split. { intros H. apply nonEmpty_true in H. unfold orElse. by rewrite H. }
    split. { intros H. apply nonEmpty_true in H. unfold orElse. by rewrite H. }
    by repeat split.
Qed.

Lemma autoSelectColumns_keeps_choices_witness :
  lookupColumn (autoSelectColumns Sample.staleState) = "ID".
Proof.
  destruct (autoSelectColumns_keeps_choices Sample.staleState) as (H & _).
  rewrite H; [reflexivity|discriminate].
Defined.

End Choosing.
